(** * Proxy-host lifecycle orchestration (backend/internal/proxy-host.js)

    A shallow embedding of [internalProxyHost]: the six operations
    [create], [update], [get], [delete], [getAll] and [getCount], written
    as state-and-error computations over an explicit world (the storage
    tables, the audit log and the trace of calls made to the nginx
    publisher).  A promise is a computation that either resolves with a
    value or rejects with an error; [.then] is the monadic bind, and a
    rejection skips every later [.then] while keeping the effects that
    were already performed. *)

From stdpp Require Import base option list gmap strings sorting pretty.
From Stdlib Require OrderedTypeEx.

Open Scope Z_scope.

(** ** Values *)

(** Values stored under the keys of a [meta] object or of any other column. *)
Inductive JsonValue :=
| JNull
| JBool (b : bool)
| JNum (n : Z)
| JStr (s : string).

#[global] Instance JsonValue_eq_dec : EqDecision JsonValue.
Proof. solve_decision. Defined.

Abbreviation Meta := (gmap string JsonValue).

(** Associations that [allowEager('[owner,access_list,certificate]')] admits. *)
Inductive Association := owner | access_list | certificate.

(** ** Records *)

(** A stored proxy-host record. *)
Module Row.
Record t := mk {
  id : Z;
  owner_user_id : Z;
  domain_names : list string;
  meta : Meta;
  is_deleted : bool;
  columns : gmap string JsonValue   (* every other column of the table *)
}.

Definition set_meta (m : Meta) (r : t) : t :=
  mk (id r) (owner_user_id r) (domain_names r) m (is_deleted r) (columns r).

Definition set_is_deleted (b : bool) (r : t) : t :=
  mk (id r) (owner_user_id r) (domain_names r) (meta r) b (columns r).
End Row.

(** A row object as a query hands it to the JavaScript code: the values of
    the stored record it was built from, the names of the properties that
    were left out of the object ([omit]) and the associations that were
    expanded into it ([eager]). *)
Module View.
Record t := mk {
  fields : Row.t;
  omitted : list string;
  expanded : list Association
}.

Definition id (v : t) : Z := Row.id (fields v).
Definition meta (v : t) : Meta := Row.meta (fields v).

(** [row.meta = m] *)
Definition set_meta (m : Meta) (v : t) : t :=
  mk (Row.set_meta m (fields v)) (omitted v) (expanded v).
End View.

(** What a promise of a row resolves with: a row object, or [undefined]
    (what [.first()] gives when nothing matches).  [None] is the only falsy
    value among them. *)
Abbreviation JsRow := (option View.t).

(** The [data] argument of [create]. *)
Module CreateData.
Record t := mk {
  domain_names : option (list string);
  owner_user_id : option Z;
  meta : option Meta;
  columns : gmap string JsonValue
}.

(** [data.owner_user_id = v] *)
Definition set_owner_user_id (v : Z) (d : t) : t :=
  mk (domain_names d) (Some v) (meta d) (columns d).

(** [data.meta = m] *)
Definition set_meta (m : Meta) (d : t) : t :=
  mk (domain_names d) (owner_user_id d) (Some m) (columns d).
End CreateData.

(** The [data] argument of [update]: the id and any subset of the mutable
    fields.  The id is an integer, the type that the JSDoc of [update]
    declares for [data.id]; payloads whose id is of another JavaScript type
    are not modelled. *)
Module UpdateData.
Record t := mk {
  id : Z;
  domain_names : option (list string);
  meta : option Meta;
  columns : gmap string JsonValue
}.
End UpdateData.

(** The [data] argument of [get]. *)
Module GetData.
Record t := mk {
  id : Z;
  expand : option (list Association);
  omit : option (list string)
}.
End GetData.

(** The [data] argument of [delete]. *)
Module DeleteData.
Record t := mk {
  id : Z;
  reason : option string
}.
End DeleteData.

(** ** Errors and promises *)

Inductive Error :=
| ValidationError (message : string)
| InternalValidationError (message : string)
| ItemNotFoundError (id : Z)
| TypeError                          (* property access on [undefined] *)
| PermissionError (message : string) (* rejection of [access.can] *)
| NginxError (message : string)      (* rejection of an [internalNginx] call *)
| AuditError (message : string).     (* rejection of [internalAuditLog.add] *)

Inductive Result (A : Type) :=
| Ok (a : A)
| Err (e : Error).
Arguments Ok {A} a.
Arguments Err {A} e.

(** A promise over a state [S]: it resolves or rejects, and leaves a state
    behind in both cases. *)
Definition M (S A : Type) : Type := S → Result A * S.

#[global] Instance M_ret {S} : MRet (M S) := λ A a s, (Ok a, s).

#[global] Instance M_bind {S} : MBind (M S) := λ A B k m s,
  match m s with
  | (Ok a, s') => k a s'
  | (Err e, s') => (Err e, s')
  end.

Definition throw {S A} (e : Error) : M S A := λ s, (Err e, s).
Definition gets {S A} (f : S → A) : M S A := λ s, (Ok (f s), s).
Definition modify {S} (f : S → S) : M S unit := λ s, (Ok tt, f s).

(** Run a promise over the world inside a computation that also carries the
    caller's [data] object. *)
Definition on_world {W D A} (m : M W A) : M (W * D) A := λ s,
  let (r, w') := m s.1 in (r, (w', s.2)).

Definition on_data {W D A} (m : M D A) : M (W * D) A := λ s,
  let (r, d') := m s.2 in (r, (s.1, d')).

(** ** The access object *)

Record AccessData := { permission_visibility : string }.

(** Second argument of [access.can]. *)
Inductive Resource :=
| ResNone
| ResId (id : Z)
| ResData (data : CreateData.t).

(** The [access] object: [token_id] is [access.token.get('attrs').id], and
    [can permission resource] is the outcome of the promise
    [access.can(permission, resource)]: the access data it resolves with,
    or the message of the error it rejects with. *)
Record Access := {
  token_id : Z;
  can : string → Resource → string + AccessData
}.

(** [access.can(permission, resource)] as a promise. *)
Definition access_can {S} (access : Access) (permission : string) (resource : Resource)
    : M S AccessData :=
  match can access permission resource with
  | inr access_data => mret access_data
  | inl message => throw (PermissionError message)
  end.

(** ** The world *)

Inductive NginxCall :=
| Configure (host_type : string) (id : Z)
| DeleteConfig (host_type : string) (id : Z)
| Reload.

#[global] Instance NginxCall_eq_dec : EqDecision NginxCall.
Proof. solve_decision. Defined.

(** The [meta] of an audit entry: [create] and [update] pass their [data]
    object, [delete] passes the row. *)
Inductive AuditMeta :=
| MetaCreate (data : CreateData.t)
| MetaUpdate (data : UpdateData.t)
| MetaRow (row : View.t).

Module AuditEntry.
Record t := mk {
  action : string;
  object_type : string;
  object_id : Z;
  meta : AuditMeta
}.
End AuditEntry.

Record World := mkWorld {
  (** the [proxy_host] table, in storage order *)
  proxy_host : list Row.t;
  (** the host records of the other host types, tagged with their type *)
  other_hosts : list (string * Row.t);
  (** audit entries with the id of the acting user, oldest first *)
  audit_log : list (Z * AuditEntry.t);
  (** calls made to the nginx publisher with their success, oldest first *)
  nginx_log : list (NginxCall * bool)
}.

Definition set_proxy_host (t : list Row.t) (w : World) : World :=
  mkWorld t (other_hosts w) (audit_log w) (nginx_log w).

Definition add_audit (e : Z * AuditEntry.t) (w : World) : World :=
  mkWorld (proxy_host w) (other_hosts w) (audit_log w ++ [e]) (nginx_log w).

Definition add_nginx (c : NginxCall * bool) (w : World) : World :=
  mkWorld (proxy_host w) (other_hosts w) (audit_log w) (nginx_log w ++ [c]).

(** ** Collaborators and queries *)

Module CheckResult.
Record t := mk {
  hostname : string;
  is_taken : bool
}.
End CheckResult.

Definition omissions : list string := ["is_deleted"].

(** [_.omit(row, names)]: a copy of the row object without the named
    properties. *)
Definition omit (names : list string) (row : View.t) : View.t :=
  View.mk (View.fields row) (View.omitted row ++ names) (View.expanded row).

(** Every host record the registry looks at, tagged with its host type. *)
Definition all_hosts (w : World) : list (string * Row.t) :=
  ((λ r, ("proxy"%string, r)) <$> proxy_host w) ++ other_hosts w.

(** An active record that lists [hostname] among its domain names. *)
Definition claims (hostname : string) (h : string * Row.t) : Prop :=
  Row.is_deleted h.2 = false ∧ hostname ∈ Row.domain_names h.2.

(** The record named by the optional arguments of [isHostnameTaken]. *)
Definition ignored (ignore_type : option string) (ignore_id : option Z)
    (h : string * Row.t) : Prop :=
  ignore_type = Some h.1 ∧ ignore_id = Some (Row.id h.2).

#[global] Instance claims_dec hostname h : Decision (claims hostname h).
Proof. unfold claims. apply _. Defined.

#[global] Instance ignored_dec ty i h : Decision (ignored ty i h).
Proof. unfold ignored. apply _. Defined.

(** Modelled from the spec: [internalHost.isHostnameTaken] (internal/host.js
    is not part of the sources).  It "checks whether a candidate domain name
    is already claimed by any active host record system-wide", has the
    signature [isHostnameTaken(domain, hostTypeFilter?, excludeId?) →
    {hostname, is_taken}], and the record of the given type and id is
    excluded "from conflict consideration". *)
Definition isHostnameTaken (hostname : string) (ignore_type : option string)
    (ignore_id : option Z) (w : World) : CheckResult.t :=
  CheckResult.mk hostname
    (bool_decide (Exists (λ h, claims hostname h ∧ ¬ ignored ignore_type ignore_id h)
                         (all_hosts w))).

(** The callback of [check_results.map(function (result) {...})]: the first
    taken result, in the order of the array, throws. *)
Fixpoint check_results_map {S} (check_results : list CheckResult.t) : M S unit :=
  match check_results with
  | [] => mret tt
  | result :: rest =>
      if CheckResult.is_taken result
      then throw (ValidationError (CheckResult.hostname result +:+ " is already in use"))
      else check_results_map rest
  end.

(** The id the storage layer gives to the next inserted record. *)
Definition next_id (w : World) : Z :=
  1 + foldr Z.max 0 (Row.id <$> proxy_host w).

(** Modelled from the spec: [proxyHostModel.query().omit(omissions())
    .insertAndFetch(data)] (models/proxy_host.js is not part of the sources):
    "insert-and-fetch", with the id "assigned at creation" and [is_deleted]
    "false at creation". *)
Definition insertAndFetch (data : CreateData.t) : M World View.t := λ w,
  let row := Row.mk (next_id w)
                    (default 0 (CreateData.owner_user_id data))
                    (default [] (CreateData.domain_names data))
                    (default ∅ (CreateData.meta data))
                    false
                    (CreateData.columns data) in
  (Ok (View.mk row omissions []), set_proxy_host (proxy_host w ++ [row]) w).

(** What a patch with the payload of [update] does to a stored record:
    "partial patch semantics", where "updates merge into existing meta
    rather than replace it". *)
Definition patch_row (data : UpdateData.t) (r : Row.t) : Row.t :=
  Row.mk (Row.id r)
         (Row.owner_user_id r)
         (default (Row.domain_names r) (UpdateData.domain_names data))
         (default ∅ (UpdateData.meta data) ∪ Row.meta r)
         (Row.is_deleted r)
         (UpdateData.columns data ∪ Row.columns r).

(** Apply [f] to every record of the table with the given id. *)
Definition patch_where_id (id : Z) (f : Row.t → Row.t) (w : World) : World :=
  set_proxy_host ((λ r, if decide (Row.id r = id) then f r else r) <$> proxy_host w) w.

(** Modelled from the spec: [proxyHostModel.query().omit(omissions())
    .patchAndFetchById(id, data)], "patch-and-fetch-by-id". *)
Definition patchAndFetchById (id : Z) (data : UpdateData.t) : M World JsRow := λ w,
  let w' := patch_where_id id (patch_row data) w in
  (Ok ((λ r, View.mk r omissions []) <$> head (filter (λ r, Row.id r = id) (proxy_host w'))),
   w').

(** [proxyHostModel.query().where('id', id).patch({is_deleted: 1})] *)
Definition patch_is_deleted (id : Z) : M World unit :=
  modify (patch_where_id id (Row.set_is_deleted true)).

(** [_.assign({}, a, b)] of lodash: the properties of the sources are copied
    from left to right, so a key of [b] overwrites the same key of [a]. *)
Definition assign (a b : Meta) : Meta := b ∪ a.

(** [GROUP BY id]: one record per id, the first in storage order. *)
Fixpoint groupBy_id (rows : list Row.t) : list Row.t :=
  match rows with
  | [] => []
  | r :: rest => r :: filter (λ r', Row.id r' ≠ Row.id r) (groupBy_id rest)
  end.

(** The world without the proxy host [id]: what is left for the registry
    once that record is out of consideration. *)
Definition without_proxy_host (id : Z) (w : World) : World :=
  mkWorld (filter (λ r, Row.id r ≠ id) (proxy_host w))
          (filter (λ h, ¬ (h.1 = "proxy"%string ∧ Row.id h.2 = id)) (other_hosts w))
          (audit_log w) (nginx_log w).

(** Invariant (a) of the data model: a name is claimed by at most one
    active host record. *)
Definition unique_names (w : World) : Prop :=
  ∀ hostname h1 h2,
    h1 ∈ all_hosts w → h2 ∈ all_hosts w →
    claims hostname h1 → claims hostname h2 →
    h1.1 = h2.1 ∧ Row.id h1.2 = Row.id h2.2.

Ltac run :=
  unfold mbind, M_bind, mret, M_ret, access_can, gets, throw, modify, on_world, on_data;
  simpl.

(** ** A concrete world

    Four proxy hosts (one of them soft-deleted) and a redirection host, an
    actor with the restricted visibility, and collaborators that do not
    reject; used to run the operations on concrete inputs. *)

Definition example_cleanMeta (m : Meta) : Meta := base.delete "internal_only" m.

Definition example_like (names : list string) (pattern : string) : bool := true.

(** Ascending order on the text of the column. *)
Definition example_names_le (a b : list string) : Prop :=
  String.leb (String.concat "," a) (String.concat "," b) = true.

#[global] Instance example_names_le_dec a b : Decision (example_names_le a b).
Proof. unfold example_names_le. apply _. Defined.

(** A publisher that marks the host as online in its [meta]. *)
Definition example_configure (w : World) (row : View.t) : string + Meta :=
  inr (<["nginx_online" := JBool true]> (View.meta row)).

Definition example_deleteConfig (w : World) (row : View.t) : option string := None.

(** A publisher whose removal of a configuration rejects. *)
Definition failing_deleteConfig (w : World) (row : View.t) : option string :=
  Some "could not remove the configuration"%string.

Definition example_reload (w : World) : option string := None.

Definition example_audit_add (w : World) (user : Z) (e : AuditEntry.t) : option string :=
  None.

Definition example_access : Access :=
  {| token_id := 1; can := λ _ _, inr {| permission_visibility := "user" |} |}.

Definition host_a : Row.t := Row.mk 5 1 ["a.example.com"%string] ∅ false ∅.
Definition host_b : Row.t := Row.mk 6 2 ["b.example.com"%string] ∅ false ∅.
Definition host_c : Row.t := Row.mk 7 1 ["c.example.com"%string] ∅ true ∅.
Definition host_0 : Row.t := Row.mk 8 1 ["0.example.com"%string] ∅ false ∅.
Definition host_r : Row.t := Row.mk 1 2 ["r.example.com"%string] ∅ false ∅.

Definition example_world : World :=
  mkWorld [host_a; host_b; host_c; host_0] [("redirection"%string, host_r)] [] [].

(** A [create] payload whose [meta] has a key that the publisher also
    sets, and whose [owner_user_id] is not the actor's. *)
Definition example_data : CreateData.t :=
  CreateData.mk (Some ["new.example.com"%string]) (Some 2)
                (Some {[ "nginx_online"%string := JBool false ]}) ∅.

(** What [create] makes of [example_data] in [example_world]. *)
Definition example_created_row : View.t :=
  View.mk (Row.mk 9 1 ["new.example.com"%string]
                  {[ "nginx_online"%string := JBool true ]} false ∅)
          ["is_deleted"%string] [owner].

Definition example_created_data : CreateData.t :=
  CreateData.mk (Some ["new.example.com"%string]) (Some 1)
                (Some {[ "nginx_online"%string := JBool true ]}) ∅.

Definition example_created_world : World :=
  mkWorld [host_a; host_b; host_c; host_0; View.fields example_created_row]
          [("redirection"%string, host_r)]
          [(1, AuditEntry.mk "created" "proxy-host" 9 (MetaCreate example_created_data))]
          [(Configure "proxy_host" 9, true)].

(** A [create] payload with two taken names after a free one. *)
Definition example_taken_data : CreateData.t :=
  CreateData.mk (Some ["new.example.com"; "b.example.com"; "a.example.com"]%string)
                None None ∅.

(** An [update] payload that resubmits the names of host 5. *)
Definition example_update_data : UpdateData.t :=
  UpdateData.mk 5 (Some ["a.example.com"%string]) None ∅.

(** The rows of [example_world] that the actor can list, in order. *)
Definition example_listed_rows : list View.t :=
  [View.mk host_0 ["is_deleted"%string] []; View.mk host_a ["is_deleted"%string] []].

(** An actor whose every permission check rejects. *)
Definition denying_access : Access :=
  {| token_id := 4; can := λ _ _, inl "Permission Denied"%string |}.

(** A publisher whose [configure] rejects. *)
Definition failing_configure (w : World) (row : View.t) : string + Meta :=
  inl "could not write the configuration"%string.

(** An [update] payload for host 5 with its own name and a name of host 6. *)
Definition example_update_taken : UpdateData.t :=
  UpdateData.mk 5 (Some ["a.example.com"; "b.example.com"]%string) None ∅.

(** An [update] payload for the soft-deleted host 7. *)
Definition example_update_gone : UpdateData.t := UpdateData.mk 7 None None ∅.

(** A [create] payload without [domain_names]. *)
Definition example_nameless_data : CreateData.t := CreateData.mk None None None ∅.

(** The row of host 5 as [get] hands it to the actor. *)
Definition example_got_row : View.t := View.mk host_a ["is_deleted"%string] [].

Section ProxyHost.

Set Default Proof Using "Type*".

(** [internalHost.cleanMeta]: strips the internal-only keys of a [meta]. *)
Variable cleanMeta : Meta → Meta.

(** The storage engine's [column LIKE pattern] on the [domain_names] column. *)
Variable like : list string → string → bool.

(** The storage engine's ascending order on the [domain_names] column. *)
Variable names_le : relation (list string).
Context `{names_le_dec : ∀ x y, Decision (names_le x y)}.

(** Outcomes of the calls to [internalNginx] and [internalAuditLog]: a
    message when the promise rejects.  [nginx_configure] resolves with the
    [meta] it leaves on the host. *)
Variable nginx_configure : World → View.t → string + Meta.
Variable nginx_deleteConfig : World → View.t → option string.
Variable nginx_reload : World → option string.
Variable audit_add : World → Z → AuditEntry.t → option string.

(** Modelled from the spec: [internalNginx.configure(model, host_type, row)]
    (internal/nginx.js is not part of the sources).  It "activates serving
    configuration; this may annotate the row's meta", and the annotation is
    what the later [get] reads back from storage. *)
Definition configure (host_type : string) (row : View.t) : M World unit := λ w,
  match nginx_configure w row with
  | inr m =>
      (Ok tt, add_nginx (Configure host_type (View.id row), true)
                (patch_where_id (View.id row) (Row.set_meta m) w))
  | inl message =>
      (Err (NginxError message), add_nginx (Configure host_type (View.id row), false) w)
  end.

(** Modelled from the spec: [internalNginx.deleteConfig(host_type, row)],
    which "may fail". *)
Definition deleteConfig (host_type : string) (row : View.t) : M World unit := λ w,
  match nginx_deleteConfig w row with
  | None => (Ok tt, add_nginx (DeleteConfig host_type (View.id row), true) w)
  | Some message =>
      (Err (NginxError message), add_nginx (DeleteConfig host_type (View.id row), false) w)
  end.

(** Modelled from the spec: [internalNginx.reload()], which "may fail". *)
Definition reload : M World unit := λ w,
  match nginx_reload w with
  | None => (Ok tt, add_nginx (Reload, true) w)
  | Some message => (Err (NginxError message), add_nginx (Reload, false) w)
  end.

(** Modelled from the spec: [internalAuditLog.add(access, entry)], which
    "appends immutable action records". *)
Definition auditLog_add (access : Access) (entry : AuditEntry.t) : M World unit := λ w,
  match audit_add w (token_id access) entry with
  | None => (Ok tt, add_audit (token_id access, entry) w)
  | Some message => (Err (AuditError message), w)
  end.

(** ** get *)

(** The [where] clauses of the query of [get]. *)
Definition get_where (access : Access) (access_data : AccessData) (data : GetData.t)
    (r : Row.t) : Prop :=
  Row.is_deleted r = false ∧
  Row.id r = GetData.id data ∧
  (permission_visibility access_data ≠ "all"%string → Row.owner_user_id r = token_id access).

#[local] Instance get_where_dec access access_data data r :
  Decision (get_where access access_data data r).
Proof. unfold get_where. apply _. Defined.

(** The query of [get], with [.first()], the custom omissions and the
    expansions. *)
Definition get_query (access : Access) (access_data : AccessData) (data : GetData.t)
    (w : World) : JsRow :=
  (λ r, View.mk r (default [] (GetData.omit data)) (default [] (GetData.expand data)))
    <$> head (filter (get_where access access_data data) (proxy_host w)).

Definition get (access : Access) (data : GetData.t) : M World JsRow :=
  access_data ← access_can access "proxy_hosts:get" (ResId (GetData.id data));
  row ← gets (get_query access access_data data);
  match row with
  | Some row =>
      let row := View.set_meta (cleanMeta (View.meta row)) row in
      mret (Some (omit omissions row))
  | None => throw (ItemNotFoundError (GetData.id data))
  end.

(** ** create *)

(** First [.then] of [create]: one registry check per domain name, awaited
    together, then inspected in the order of the request. *)
Definition create_check_domain_names (data : CreateData.t) : M World unit :=
  match CreateData.domain_names data with
  | None => throw TypeError
  | Some domain_names =>
      check_results ← gets (λ w,
        (λ domain_name, isHostnameTaken domain_name None None w) <$> domain_names);
      check_results_map check_results
  end.

(** [create] over the world and the caller's [data] object, which the code
    assigns to. *)
Definition create_promise (access : Access) : M (World * CreateData.t) JsRow :=
  data ← gets snd;
  access_can access "proxy_hosts:create" (ResData data);;
  on_world (create_check_domain_names data);;
  on_data (modify (CreateData.set_owner_user_id (token_id access)));;
  data ← gets snd;
  row ← on_world (insertAndFetch data);
  on_world (configure "proxy_host" row);;
  row ← on_world (get access (GetData.mk (View.id row) (Some [owner]) None));
  match row with
  | None => throw TypeError
  | Some r =>
      on_data (modify (λ data,
        CreateData.set_meta (assign (default ∅ (CreateData.meta data)) (View.meta r)) data));;
      data ← gets snd;
      on_world (auditLog_add access
        (AuditEntry.mk "created" "proxy-host" (View.id r) (MetaCreate data)));;
      mret row
  end.

(** [create(access, data)]: the outcome, the caller's [data] object after
    the call, and the world after the call. *)
Definition create (access : Access) (data : CreateData.t) (w : World)
    : Result JsRow * CreateData.t * World :=
  let '(r, (w', data')) := create_promise access (w, data) in (r, data', w').

(** ** update *)

Definition update_check_domain_names (data : UpdateData.t) : M World unit :=
  match UpdateData.domain_names data with
  | Some domain_names =>
      check_results ← gets (λ w,
        (λ domain_name,
           isHostnameTaken domain_name (Some "proxy"%string) (Some (UpdateData.id data)) w)
          <$> domain_names);
      check_results_map check_results
  | None => mret tt
  end.

(** Last [.then] of [update], applied to the row that [get] resolved with. *)
Definition update_row (access : Access) (data : UpdateData.t) (row : JsRow)
    : M World JsRow :=
  match row with
  | None => throw TypeError
  | Some row =>
      if decide (View.id row ≠ UpdateData.id data) then
        throw (InternalValidationError
                 ("Proxy Host could not be updated, IDs do not match: "
                    +:+ pretty (View.id row) +:+ " !== " +:+ pretty (UpdateData.id data)))
      else
        saved_row ← patchAndFetchById (View.id row) data;
        match saved_row with
        | None => throw TypeError
        | Some saved_row =>
            let saved_row := View.set_meta (cleanMeta (View.meta saved_row)) saved_row in
            auditLog_add access
              (AuditEntry.mk "updated" "proxy-host" (View.id row) (MetaUpdate data));;
            mret (Some (omit omissions saved_row))
        end
  end.

Definition update (access : Access) (data : UpdateData.t) : M World JsRow :=
  access_can access "proxy_hosts:update" (ResId (UpdateData.id data));;
  update_check_domain_names data;;
  row ← get access (GetData.mk (UpdateData.id data) None None);
  update_row access data row.

(** ** delete *)

(** Second [.then] of [delete], applied to the row that [get] resolved
    with. *)
Definition delete_row (access : Access) (data : DeleteData.t) (row : JsRow)
    : M World unit :=
  match row with
  | None => throw (ItemNotFoundError (DeleteData.id data))
  | Some row =>
      patch_is_deleted (View.id row);;
      (deleteConfig "proxy_host" row;; reload);;
      let row := View.set_meta (cleanMeta (View.meta row)) row in
      auditLog_add access
        (AuditEntry.mk "deleted" "proxy-host" (View.id row) (MetaRow (omit omissions row)))
  end.

Definition delete (access : Access) (data : DeleteData.t) : M World bool :=
  access_can access "proxy_hosts:delete" (ResId (DeleteData.id data));;
  row ← get access (GetData.mk (DeleteData.id data) None None);
  delete_row access data row;;
  mret true.

(** ** getAll *)

Definition getAll_where (access : Access) (access_data : AccessData)
    (search_query : option string) (r : Row.t) : Prop :=
  Row.is_deleted r = false ∧
  (permission_visibility access_data ≠ "all"%string → Row.owner_user_id r = token_id access) ∧
  match search_query with
  | Some q => like (Row.domain_names r) ("%" +:+ q +:+ "%") = true
  | None => True
  end.

#[local] Instance getAll_where_dec access access_data search_query r :
  Decision (getAll_where access access_data search_query r).
Proof. unfold getAll_where. destruct search_query; apply _. Defined.

(** Ascending order of two records on their [domain_names] column. *)
Definition orderBy_domain_names (a b : Row.t) : Prop :=
  names_le (Row.domain_names a) (Row.domain_names b).

#[local] Instance orderBy_domain_names_dec a b : Decision (orderBy_domain_names a b).
Proof. unfold orderBy_domain_names. apply _. Defined.

(** The query of [getAll]: where, group by, order by, then the omission and
    the expansions. *)
Definition getAll_query (access : Access) (access_data : AccessData)
    (expand : option (list Association)) (search_query : option string)
    (w : World) : list View.t :=
  (λ r, View.mk r ["is_deleted"%string] (default [] expand))
    <$> merge_sort orderBy_domain_names
          (groupBy_id (filter (getAll_where access access_data search_query) (proxy_host w))).

Definition getAll (access : Access) (expand : option (list Association))
    (search_query : option string) : M World (list View.t) :=
  access_data ← access_can access "proxy_hosts:list" ResNone;
  rows ← gets (getAll_query access access_data expand search_query);
  mret ((λ row, View.set_meta (cleanMeta (View.meta row)) row) <$> rows).

(** ** getCount *)

Definition getCount_where (user_id : Z) (visibility : string) (r : Row.t) : Prop :=
  Row.is_deleted r = false ∧
  (visibility ≠ "all"%string → Row.owner_user_id r = user_id).

#[local] Instance getCount_where_dec user_id visibility r :
  Decision (getCount_where user_id visibility r).
Proof. unfold getCount_where. apply _. Defined.

(** The records that the query of [getCount] counts. *)
Definition getCount_rows (user_id : Z) (visibility : string) (w : World) : list Row.t :=
  filter (getCount_where user_id visibility) (proxy_host w).

Definition getCount (user_id : Z) (visibility : string) : M World Z :=
  count ← gets (λ w, length (getCount_rows user_id visibility w));
  mret (Z.of_nat count).

(** Ascending order of two row objects on [domain_names]. *)
Definition rows_ascending (a b : View.t) : Prop :=
  names_le (Row.domain_names (View.fields a)) (Row.domain_names (View.fields b)).

(** ** Running promises *)

(** Resolving with a constant afterwards does not change the state. *)
Lemma bind_ret_state {S A B} (m : M S A) (b : B) s : ((m ;; mret b) s).2 = (m s).2.
Proof. unfold mbind, M_bind, mret, M_ret. by destruct (m s) as [[a|e] s']. Qed.

(** ** Facts about [get] *)

(** [get] only reads the world. *)
Lemma get_world access data w : (get access data w).2 = w.
Proof.
  unfold get. run. destruct (can access _ _); run; [done|].
  by destruct (get_query _ _ _ _).
Qed.

(** The three ways [get] can settle. *)
Lemma get_cases access data w :
  (∃ m, can access "proxy_hosts:get" (ResId (GetData.id data)) = inl m ∧
        get access data w = (Err (PermissionError m), w)) ∨
  (∃ ad, can access "proxy_hosts:get" (ResId (GetData.id data)) = inr ad ∧
         get_query access ad data w = None ∧
         get access data w = (Err (ItemNotFoundError (GetData.id data)), w)) ∨
  (∃ ad row, can access "proxy_hosts:get" (ResId (GetData.id data)) = inr ad ∧
         get_query access ad data w = Some row ∧
         get access data w =
           (Ok (Some (omit omissions (View.set_meta (cleanMeta (View.meta row)) row))), w)).
Proof.
  unfold get. run. destruct (can access _ _) as [m|ad]; run; [left; eauto|].
  destruct (get_query _ _ _ _) as [row|] eqn:Q; right; [right | left]; eauto.
Qed.

(** A row found by the query of [get] is a stored record that satisfies the
    [where] clauses. *)
Lemma get_query_Some access ad data w row :
  get_query access ad data w = Some row →
  View.fields row ∈ proxy_host w ∧ get_where access ad data (View.fields row).
Proof.
  unfold get_query. intros E. apply fmap_Some in E as (r & Hh & ->). simpl.
  apply head_Some_elem_of, list_elem_of_filter in Hh as [Hw Hin]. by split.
Qed.

Lemma get_query_None access ad data w :
  get_query access ad data w = None ↔
  ∀ r, r ∈ proxy_host w → ¬ get_where access ad data r.
Proof.
  unfold get_query. rewrite fmap_None, head_None. split.
  - intros E r Hr Hw. assert (r ∈ filter (get_where access ad data) (proxy_host w)) as Hin
      by (apply list_elem_of_filter; done).
    rewrite E in Hin. by apply elem_of_nil in Hin.
  - intros H. destruct (filter _ _) as [|r l] eqn:E; [done|].
    assert (r ∈ filter (get_where access ad data) (proxy_host w)) as Hin
      by (rewrite E; left).
    apply list_elem_of_filter in Hin as [Hw Hr]. by destruct (H r Hr).
Qed.

(** ** delete *)

(** The three ways [delete] can run: rejected by the permission check,
    rejected by [get], or its second [.then] runs on a row object. *)
Lemma delete_cases access data w :
  let q := GetData.mk (DeleteData.id data) None None in
  (∃ m, can access "proxy_hosts:delete" (ResId (DeleteData.id data)) = inl m ∧
        delete access data w = (Err (PermissionError m), w)) ∨
  (∃ e, get access q w = (Err e, w) ∧ delete access data w = (Err e, w)) ∨
  (∃ row, get access q w = (Ok (Some row), w) ∧
          delete access data w = (delete_row access data (Some row) ;; mret true) w).
Proof.
  intros q. unfold delete.
  unfold access_can.
  destruct (can access "proxy_hosts:delete" _) as [m|ad] eqn:C; run; [left; eauto|].
  right. subst q.
  destruct (get_cases access (GetData.mk (DeleteData.id data) None None) w)
    as [(e & _ & G)|[(ad' & _ & _ & G)|(ad' & row & _ & _ & G)]];
    [left | left | right]; eexists; (split; [exact G|]); run; by rewrite G.
Qed.

(** C10: the [if (!row)] branch of [delete] is dead code.  Once its own
    permission check has passed, the [get] that [delete] calls either
    resolves with a row object or rejects with [ItemNotFoundError] itself;
    it never resolves with a falsy value; so [delete] either rejects before
    its second [.then] (at a permission check or with the error of [get]),
    or runs that [.then] on a row object. *)
Theorem delete_not_found_branch_dead access data w :
  let q := GetData.mk (DeleteData.id data) None None in
  (∀ ad, can access "proxy_hosts:get" (ResId (DeleteData.id data)) = inr ad →
         (∃ row, get access q w = (Ok (Some row), w)) ∨
         get access q w = (Err (ItemNotFoundError (DeleteData.id data)), w)) ∧
  (∀ w', get access q w ≠ (Ok None, w')) ∧
  ((∃ e, delete access data w = (Err e, w) ∧
         ((∃ m, can access "proxy_hosts:delete" (ResId (DeleteData.id data)) = inl m ∧
                e = PermissionError m) ∨
          get access q w = (Err e, w))) ∨
   (∃ row, get access q w = (Ok (Some row), w) ∧
           delete access data w = (delete_row access data (Some row) ;; mret true) w)).
Proof.
  intros q. split_and!.
  - intros ad C.
    destruct (get_cases access q w) as [(m & C' & G)|[(ad' & _ & _ & G)|(ad' & row & _ & _ & G)]];
      simpl in *; [congruence | by right | left; eauto].
  - intros w' E.
    destruct (get_cases access q w) as [(e & _ & G)|[(ad & _ & _ & G)|(ad & row & _ & _ & G)]];
      rewrite G in E; discriminate.
  - destruct (delete_cases access data w) as [(m & C & D)|[(e & G & D)|(row & G & D)]];
      [left | left | right]; eauto 8.
Qed.

(** What the second [.then] of [delete] appends to the trace of publisher
    calls: a failed removal, or a successful removal followed by a reload. *)
Lemma delete_row_nginx_log access data row w :
  ∃ ok, nginx_log (delete_row access data (Some row) w).2 =
          nginx_log w ++
          match nginx_deleteConfig
                  (patch_where_id (View.id row) (Row.set_is_deleted true) w) row with
          | Some _ => [(DeleteConfig "proxy_host" (View.id row), false)]
          | None => [(DeleteConfig "proxy_host" (View.id row), true); (Reload, ok)]
          end.
Proof.
  unfold delete_row, patch_is_deleted, deleteConfig, reload, auditLog_add. run.
  destruct (nginx_deleteConfig _ _) as [m|]; simpl; [by exists true|].
  destruct (nginx_reload _) as [m|]; simpl.
  - exists false. by rewrite <- app_assoc.
  - exists true. destruct (audit_add _ _ _); simpl; by rewrite <- app_assoc.
Qed.

(** C7: in every run of [delete] the calls made to the publisher are, in
    order: none at all, or a removal of the host's configuration that
    failed and nothing after it, or a removal that succeeded followed by
    one reload.  So [reload] is called only after [deleteConfig] has
    succeeded; and when [deleteConfig] rejects in a run that reached it,
    [delete] rejects with its error right there, the failed removal being
    the last call made (and the record staying marked as deleted). *)
Theorem delete_reload_gated_on_deleteConfig access data w :
  (∃ calls, nginx_log (delete access data w).2 = nginx_log w ++ calls ∧
     (calls = [] ∨
      (∃ id, calls = [(DeleteConfig "proxy_host" id, false)]) ∨
      (∃ id ok, calls = [(DeleteConfig "proxy_host" id, true); (Reload, ok)]))) ∧
  (∀ ad row message,
     can access "proxy_hosts:delete" (ResId (DeleteData.id data)) = inr ad →
     get access (GetData.mk (DeleteData.id data) None None) w = (Ok (Some row), w) →
     let w1 := patch_where_id (View.id row) (Row.set_is_deleted true) w in
     nginx_deleteConfig w1 row = Some message →
     delete access data w =
       (Err (NginxError message),
        add_nginx (DeleteConfig "proxy_host" (View.id row), false) w1)).
Proof.
  split.
  - destruct (delete_cases access data w) as [(e & C & D)|[(e & G & D)|(row & G & D)]].
    + exists []. rewrite D. simpl. rewrite app_nil_r. auto.
    + exists []. rewrite D. simpl. rewrite app_nil_r. auto.
    + rewrite D. destruct (delete_row_nginx_log access data row w) as [ok Hlog].
      eexists. split.
      * rewrite bind_ret_state. exact Hlog.
      * destruct (nginx_deleteConfig _ _); eauto.
  - intros ad row message C G w1 Hfail.
    destruct (delete_cases access data w) as [(e & C' & D)|[(e & G' & D)|(row' & G' & D)]].
    + congruence.
    + rewrite G in G'. discriminate.
    + rewrite G in G'. simplify_eq. rewrite D.
      unfold delete_row, patch_is_deleted, deleteConfig. run. fold w1. by rewrite Hfail.
Qed.

(** A run of the second [.then] of [delete] in which no collaborator
    rejects marks every record with the row's id as deleted. *)
Lemma delete_row_Ok access data row w :
  (∀ w' v, nginx_deleteConfig w' v = None) →
  (∀ w', nginx_reload w' = None) →
  (∀ w' u e, audit_add w' u e = None) →
  ∃ w1, delete_row access data (Some row) w = (Ok tt, w1) ∧
        proxy_host w1 =
          proxy_host (patch_where_id (View.id row) (Row.set_is_deleted true) w).
Proof.
  intros Hd Hr Ha.
  unfold delete_row, patch_is_deleted, deleteConfig, reload, auditLog_add. run.
  rewrite Hd. simpl. rewrite Hr. simpl. rewrite Ha. simpl. eauto.
Qed.

(** After that patch the query of [get] finds no record with this id. *)
Lemma get_query_after_delete access ad id w w1 :
  proxy_host w1 = proxy_host (patch_where_id id (Row.set_is_deleted true) w) →
  get_query access ad (GetData.mk id None None) w1 = None.
Proof.
  intros Ht. apply get_query_None. intros r Hr (Hact & Hid & _). simpl in Hid.
  rewrite Ht in Hr. unfold patch_where_id in Hr. simpl in Hr.
  apply list_elem_of_fmap in Hr as (r0 & -> & _).
  destruct (decide (Row.id r0 = id)) as [?|Hne]; simpl in *; [discriminate|done].
Qed.

(** C3: for a record that exists, is active and is visible to the actor
    (and with collaborators that do not reject), the first [delete]
    resolves with [true] and a second [delete] of the same id rejects with
    [ItemNotFoundError]: the record is soft-deleted by then and [get]
    filters on [is_deleted = 0]. *)
Theorem delete_twice access data w r ad0 ad :
  can access "proxy_hosts:delete" (ResId (DeleteData.id data)) = inr ad0 →
  can access "proxy_hosts:get" (ResId (DeleteData.id data)) = inr ad →
  r ∈ proxy_host w →
  get_where access ad (GetData.mk (DeleteData.id data) None None) r →
  (∀ w' v, nginx_deleteConfig w' v = None) →
  (∀ w', nginx_reload w' = None) →
  (∀ w' u e, audit_add w' u e = None) →
  ∃ w1, delete access data w = (Ok true, w1) ∧
        delete access data w1 = (Err (ItemNotFoundError (DeleteData.id data)), w1).
Proof.
  intros Cd Cg Hr Hw Hd Hrl Ha.
  set (q := GetData.mk (DeleteData.id data) None None).
  destruct (get_cases access q w) as [(e & C & _)|[(ad' & C & Q & _)|(ad' & row & C & Q & G)]];
    simpl in C; rewrite Cg in C; simplify_eq.
  { exfalso. by eapply get_query_None. }
  pose proof (get_query_Some _ _ _ _ _ Q) as [_ (_ & Hid & _)]. simpl in Hid.
  destruct (delete_row_Ok access data
              (omit omissions (View.set_meta (cleanMeta (View.meta row)) row)) w Hd Hrl Ha)
    as (w1 & D & Ht).
  exists w1. split.
  - unfold delete, access_can. rewrite Cd. run. fold q. rewrite G. by rewrite D.
  - unfold delete, access_can. rewrite Cd. run. fold q.
    destruct (get_cases access q w1) as [(e & C & _)|[(ad1 & C & _ & G')|(ad1 & row' & C & Q' & _)]];
      simpl in C; rewrite Cg in C; simplify_eq.
    + by rewrite G'.
    + unfold View.id in Ht. simpl in Ht. rewrite Hid in Ht.
      by rewrite (get_query_after_delete _ _ _ _ _ Ht) in Q'.
Qed.

(** ** update *)

(** C8: when the row that [get] resolved with has another id than
    [data.id], the last [.then] of [update] rejects with an
    [InternalValidationError] and the world is left as it was (nothing is
    patched, nothing is audited); when the ids are equal it never rejects
    with that error. *)
Theorem update_row_id_check access data row w :
  (View.id row ≠ UpdateData.id data →
     update_row access data (Some row) w =
       (Err (InternalValidationError
               ("Proxy Host could not be updated, IDs do not match: "
                  +:+ pretty (View.id row) +:+ " !== " +:+ pretty (UpdateData.id data))), w)) ∧
  (View.id row = UpdateData.id data →
     ∀ message, (update_row access data (Some row) w).1 ≠ Err (InternalValidationError message)).
Proof.
  split; intros Hid; unfold update_row.
  - by rewrite decide_True.
  - rewrite decide_False by (intros ?; done). intros message. run.
    destruct (head _) as [saved|]; simpl; [|done].
    unfold auditLog_add. by destruct (audit_add _ _ _).
Qed.

(** ** getAll and getCount *)

Lemma groupBy_id_elem_of rows r : r ∈ groupBy_id rows → r ∈ rows.
Proof.
  revert r. induction rows as [|r0 rest IH]; intros r; simpl; [done|].
  rewrite !elem_of_cons, list_elem_of_filter. intros [->|[_ Hr]]; auto.
Qed.

(** A record selected by the query of [getAll] is a stored record that
    satisfies its [where] clauses. *)
Lemma getAll_query_elem_of access ad expand search_query w row :
  row ∈ getAll_query access ad expand search_query w →
  View.fields row ∈ proxy_host w ∧
  getAll_where access ad search_query (View.fields row).
Proof.
  unfold getAll_query. intros Hin. apply list_elem_of_fmap in Hin as (r & -> & Hr). simpl.
  rewrite merge_sort_Permutation in Hr.
  apply groupBy_id_elem_of, list_elem_of_filter in Hr as [Hw Hin]. by split.
Qed.

(** [getAll] resolves with the rows of its query, their [meta] cleaned. *)
Lemma getAll_Ok access expand search_query w rows w' :
  getAll access expand search_query w = (Ok rows, w') →
  ∃ ad, can access "proxy_hosts:list" ResNone = inr ad ∧ w' = w ∧
        rows = (λ row, View.set_meta (cleanMeta (View.meta row)) row)
                 <$> getAll_query access ad expand search_query w.
Proof.
  unfold getAll. run. destruct (can access _ _) as [m|ad]; run; [discriminate|].
  intros E. simplify_eq. eauto.
Qed.

(** C6: a sequence that [getAll] resolves with contains no record with
    [is_deleted] set, and is in ascending order of [domain_names] (for a
    storage order that is total and transitive): every row is below every
    row that comes after it. *)
Theorem getAll_active_and_ordered `{!Total names_le} `{!Transitive names_le}
    access expand search_query w rows w' :
  getAll access expand search_query w = (Ok rows, w') →
  Forall (λ row, Row.is_deleted (View.fields row) = false) rows ∧
  StronglySorted rows_ascending rows.
Proof.
  intros (ad & _ & _ & ->)%getAll_Ok. split.
  - apply Forall_fmap, Forall_forall. intros row Hrow.
    apply getAll_query_elem_of in Hrow as [_ [Hact _]]. done.
  - unfold getAll_query. rewrite <- list_fmap_compose.
    apply StronglySorted_fmap with (R1 := orderBy_domain_names); [by intros x y|].
    apply StronglySorted_merge_sort.
    + intros x y z. unfold orderBy_domain_names. apply transitivity.
    + intros x y. unfold orderBy_domain_names. apply total; apply _.
Qed.

(** C5: with a visibility other than "all", the row that [get] resolves
    with, every row that [getAll] resolves with and every record that
    [getCount] counts are owned by the actor ([access.token.get('attrs').id]
    for [get] and [getAll], the [user_id] argument for [getCount]). *)
Theorem scoped_queries_only_see_own_rows access ad visibility :
  permission_visibility ad ≠ "all"%string →
  visibility ≠ "all"%string →
  (∀ data w row w',
     can access "proxy_hosts:get" (ResId (GetData.id data)) = inr ad →
     get access data w = (Ok (Some row), w') →
     Row.owner_user_id (View.fields row) = token_id access) ∧
  (∀ expand search_query w rows w',
     can access "proxy_hosts:list" ResNone = inr ad →
     getAll access expand search_query w = (Ok rows, w') →
     Forall (λ row, Row.owner_user_id (View.fields row) = token_id access) rows) ∧
  (∀ user_id w,
     Forall (λ r, Row.owner_user_id r = user_id) (getCount_rows user_id visibility w) ∧
     getCount user_id visibility w =
       (Ok (Z.of_nat (length (getCount_rows user_id visibility w))), w)).
Proof.
  intros Hscope Hvis. split_and!.
  - intros data w row w' C G.
    destruct (get_cases access data w) as [(e & _ & G')|[(ad' & _ & _ & G')|(ad' & row' & C' & Q & G')]];
      rewrite G' in G; simplify_eq.
    rewrite C in C'. simplify_eq.
    apply get_query_Some in Q as [_ (_ & _ & Hown)]. simpl. auto.
  - intros expand search_query w rows w' C (ad' & C' & _ & ->)%getAll_Ok.
    rewrite C in C'. simplify_eq.
    apply Forall_fmap, Forall_forall. intros row Hrow.
    apply getAll_query_elem_of in Hrow as [_ (_ & Hown & _)]. simpl. auto.
  - intros user_id w. split; [|done].
    apply Forall_forall. intros r Hr. unfold getCount_rows in Hr.
    apply list_elem_of_filter in Hr as [(_ & Hown) _]. auto.
Qed.

(** ** The hostname checks of create and update *)

Lemma elem_of_all_hosts h w :
  h ∈ all_hosts w ↔ (h.1 = "proxy"%string ∧ h.2 ∈ proxy_host w) ∨ h ∈ other_hosts w.
Proof.
  unfold all_hosts. rewrite elem_of_app, list_elem_of_fmap. destruct h as [ty r]. simpl.
  split.
  - intros [(r' & [= -> ->] & Hr)|Ho]; auto.
  - intros [[-> Hr]|Ho]; eauto.
Qed.

(** Ignoring the proxy host [id] is looking at the world without it. *)
Lemma isHostnameTaken_ignore hostname id w :
  isHostnameTaken hostname (Some "proxy"%string) (Some id) w =
  isHostnameTaken hostname None None (without_proxy_host id w).
Proof.
  unfold isHostnameTaken. f_equal. apply bool_decide_ext.
  rewrite !Exists_exists. split.
  - intros (h & Hin & Hcl & Hign). exists h. split_and!; [|done|by intros [? ?]].
    apply elem_of_all_hosts. apply elem_of_all_hosts in Hin as [[Hty Hr]|Ho]; simpl.
    + left. split; [done|]. apply list_elem_of_filter. split; [|done].
      intros Hid. apply Hign. unfold ignored. by rewrite Hty, Hid.
    + right. apply list_elem_of_filter. split; [|done].
      intros [Hty Hid]. apply Hign. unfold ignored. by rewrite Hty, Hid.
  - intros (h & Hin & Hcl & _). exists h.
    apply elem_of_all_hosts in Hin as [[Hty Hr]|Ho]; simpl in *.
    + apply list_elem_of_filter in Hr as [Hid Hr]. split_and!; [|done|].
      * apply elem_of_all_hosts. auto.
      * intros [_ [= Hid']]. done.
    + apply list_elem_of_filter in Ho as [Hne Ho]. split_and!; [|done|].
      * apply elem_of_all_hosts. auto.
      * intros [[= Hty] [= Hid]]. apply Hne. by rewrite <- Hty, <- Hid.
Qed.

(** Inspecting the results neither reads nor changes the state. *)
Lemma check_results_map_state {S} (l : list CheckResult.t) (s : S) :
  (check_results_map l s).2 = s.
Proof.
  induction l as [|r l IH]; simpl; [done|]. by destruct (CheckResult.is_taken r).
Qed.

Lemma check_results_map_result {S T} (l : list CheckResult.t) (s : S) (t : T) :
  (check_results_map l s).1 = (check_results_map l t).1.
Proof.
  induction l as [|r l IH]; simpl; [done|]. by destruct (CheckResult.is_taken r).
Qed.

(** The first taken result, in the order of the list, is the one reported. *)
Lemma check_results_map_first_taken {S} (f : string → CheckResult.t)
    (before after : list string) (name : string) (s : S) :
  Forall (λ n, CheckResult.is_taken (f n) = false) before →
  CheckResult.is_taken (f name) = true →
  check_results_map (f <$> before ++ name :: after) s =
    (Err (ValidationError (CheckResult.hostname (f name) +:+ " is already in use")), s).
Proof.
  intros Hbefore Htaken. induction Hbefore as [|n before Hn _ IH]; simpl.
  - by rewrite Htaken.
  - by rewrite Hn.
Qed.

Lemma check_results_map_none_taken {S} (f : string → CheckResult.t)
    (names : list string) (s : S) :
  Forall (λ n, CheckResult.is_taken (f n) = false) names →
  check_results_map (f <$> names) s = (Ok tt, s).
Proof.
  intros Hnames. induction Hnames as [|n names Hn _ IH]; simpl; [done|]. by rewrite Hn.
Qed.

(** A list with a taken name splits at its first taken name. *)
Lemma first_taken_split (taken : string → bool) (names : list string) :
  Exists (λ n, taken n = true) names →
  ∃ before name after,
    names = before ++ name :: after ∧
    Forall (λ n, taken n = false) before ∧ taken name = true.
Proof.
  induction names as [|n names IH]; intros Hex; [by apply Exists_nil in Hex|].
  destruct (taken n) eqn:Hn.
  - exists [], n, names. by repeat split.
  - apply Exists_cons in Hex as [Hex|Hex]; [congruence|].
    destruct (IH Hex) as (before & name & after & -> & Hb & Ht).
    exists (n :: before), name, after. repeat split; [by constructor | done].
Qed.

(** The rest of [update] never rejects with a [ValidationError]. *)
Lemma get_not_ValidationError access q w message :
  (get access q w).1 ≠ Err (ValidationError message).
Proof.
  destruct (get_cases access q w) as [(m & _ & G)|[(ad & _ & _ & G)|(ad & row & _ & _ & G)]];
    by rewrite G.
Qed.

Lemma update_row_not_ValidationError access data row w message :
  (update_row access data row w).1 ≠ Err (ValidationError message).
Proof.
  unfold update_row. destruct row as [row|]; [|done].
  destruct (decide _); [done|]. run.
  destruct (head _) as [saved|]; simpl; [|done].
  unfold auditLog_add. by destruct (audit_add _ _ _).
Qed.

(** The check of [update] on a world is the check of [create] on the
    same names in the world without the proxy host [data.id]. *)
Lemma update_check_as_create_check data cdata names w :
  UpdateData.domain_names data = Some names →
  CreateData.domain_names cdata = Some names →
  (update_check_domain_names data w).1 =
    (create_check_domain_names cdata (without_proxy_host (UpdateData.id data) w)).1.
Proof.
  intros Hu Hc.
  unfold update_check_domain_names, create_check_domain_names. rewrite Hu, Hc. run.
  erewrite list_fmap_ext; [apply check_results_map_result|].
  intros i n _. apply isHostnameTaken_ignore.
Qed.

(** The names of the active host [data.id] itself pass the check of
    [update] when names are unique among active hosts. *)
Lemma update_check_own_names data names w own :
  UpdateData.domain_names data = Some names →
  own ∈ proxy_host w →
  Row.id own = UpdateData.id data →
  Row.is_deleted own = false →
  Row.domain_names own = names →
  unique_names w →
  update_check_domain_names data w = (Ok tt, w).
Proof.
  intros Hu Hown Hid Hact Hnames Huniq.
  unfold update_check_domain_names. rewrite Hu. run.
  apply (check_results_map_none_taken
           (λ n, isHostnameTaken n (Some "proxy"%string) (Some (UpdateData.id data)) w)).
  apply Forall_forall. intros n Hn. simpl.
  apply bool_decide_eq_false. rewrite Exists_exists. intros (h & Hh & Hcl & Hign).
  apply Hign.
  destruct (Huniq n h ("proxy"%string, own)) as [Hty Hid']; [done| |done| |].
  - apply elem_of_all_hosts. left. done.
  - split; simpl; [done|]. by rewrite Hnames.
  - unfold ignored. simpl in *. by rewrite Hty, Hid', Hid.
Qed.

(** ** create *)

(** C4: when the permission check passes and [data.domain_names] contains
    a taken name, [create] rejects with the [ValidationError] of the first
    taken name in the order of [data.domain_names] (one error, whatever the
    number of taken names), and neither the world nor [data] is changed. *)
Theorem create_reports_first_taken_name access data names w ad :
  can access "proxy_hosts:create" (ResData data) = inr ad →
  CreateData.domain_names data = Some names →
  Exists (λ n, CheckResult.is_taken (isHostnameTaken n None None w) = true) names →
  ∃ before name after,
    names = before ++ name :: after ∧
    Forall (λ n, CheckResult.is_taken (isHostnameTaken n None None w) = false) before ∧
    CheckResult.is_taken (isHostnameTaken name None None w) = true ∧
    create access data w =
      (Err (ValidationError (name +:+ " is already in use")), data, w).
Proof.
  intros Hcan Hnames Hex.
  destruct (first_taken_split
              (λ n, CheckResult.is_taken (isHostnameTaken n None None w)) names Hex)
    as (before & name & after & -> & Hbefore & Htaken).
  exists before, name, after. split_and!; [done..|].
  unfold create, create_promise. run. rewrite Hcan. run.
  unfold create_check_domain_names. rewrite Hnames. run.
  by rewrite (check_results_map_first_taken
                (λ n, isHostnameTaken n None None w) before after name w Hbefore Htaken).
Qed.

(** A run of [create] that resolves: the row it resolves with is the one
    [get] read back, the caller's [data] has been assigned the actor's id
    and the merged [meta], and the newest audit entry carries that very
    [data]. *)
Lemma create_Ok access data w row data' w' :
  create access data w = (Ok row, data', w') →
  ∃ r w1,
    row = Some r ∧
    get access (GetData.mk (View.id r) (Some [owner]) None) w1 = (Ok (Some r), w1) ∧
    data' = CreateData.set_meta
              (assign (default ∅ (CreateData.meta data)) (View.meta r))
              (CreateData.set_owner_user_id (token_id access) data) ∧
    w' = add_audit (token_id access,
                    AuditEntry.mk "created" "proxy-host" (View.id r) (MetaCreate data')) w1.
Proof.
  unfold create, create_promise. run.
  destruct (can access _ _) as [m|ad]; run; [discriminate|].
  destruct (create_check_domain_names data w) as [[[]|e] w1] eqn:Hcheck; [|discriminate].
  unfold insertAndFetch, configure. run.
  destruct (nginx_configure _ _) as [m|pm]; [discriminate|].
  match goal with |- context [get access ?q ?w2] =>
    destruct (get_cases access q w2) as [(m & _ & G)|[(ad' & _ & _ & G)|(ad' & r0 & _ & Q & G)]];
    rewrite G in *
  end; [discriminate..|].
  run. unfold auditLog_add.
  destruct (audit_add _ _ _) as [m|]; [discriminate|].
  intros E. simplify_eq. do 2 eexists. split_and!; [done| |done|done].
  apply get_query_Some in Q as [_ (_ & Hid & _)]. simpl in Hid.
  unfold View.id at 1. simpl. rewrite Hid. exact G.
Qed.

(** C2, as the code has it: in a run of [create] that resolves, the newest
    audit entry has action "created" and carries the caller's [data], whose
    [meta] is the merge of the [meta] the caller asked for and the [meta]
    of the row read back after publishing; on a key present in both the
    value of the row wins, and the caller's keys fill the keys the row
    does not have. *)
Theorem create_audit_meta_row_wins access data w r data' w' :
  create access data w = (Ok (Some r), data', w') →
  ∃ audited merged,
    last (audit_log w') =
      Some (token_id access,
            AuditEntry.mk "created" "proxy-host" (View.id r) (MetaCreate audited)) ∧
    CreateData.meta audited = Some merged ∧
    ∀ key, merged !! key =
             match View.meta r !! key with
             | Some v => Some v
             | None => default ∅ (CreateData.meta data) !! key
             end.
Proof.
  intros (r' & w1 & [= <-] & _ & -> & ->)%create_Ok.
  do 2 eexists. split_and!.
  - simpl. apply last_snoc.
  - done.
  - intros key. unfold assign. rewrite lookup_union.
    destruct (View.meta r !! key), (default ∅ (CreateData.meta data) !! key); done.
Qed.

(** C9: [create] assigns to the [data] object of its caller.  After a run
    that resolves, [data.owner_user_id] is the actor's id whatever the
    caller had put there, [data.meta] is the merged [meta], and the object
    in the audit entry is that same [data]. *)
Theorem create_mutates_data access data w row data' w' :
  create access data w = (Ok row, data', w') →
  CreateData.owner_user_id data' = Some (token_id access) ∧
  ∃ r, row = Some r ∧
       CreateData.meta data' =
         Some (assign (default ∅ (CreateData.meta data)) (View.meta r)) ∧
       last (audit_log w') =
         Some (token_id access,
               AuditEntry.mk "created" "proxy-host" (View.id r) (MetaCreate data')).
Proof.
  intros (r & w1 & -> & _ & -> & ->)%create_Ok.
  split; [done|]. exists r. split_and!; [done..|]. simpl. apply last_snoc.
Qed.

(** ** What the read operations do *)

(** The outcome of [get] depends on the [proxy_host] table only. *)
Lemma get_table access q w w' :
  proxy_host w = proxy_host w' → (get access q w).1 = (get access q w').1.
Proof.
  intros Ht. unfold get. run. destruct (can access _ _) as [m|ad]; run; [done|].
  unfold get_query. rewrite Ht. by destruct (head _).
Qed.

Lemma get_run access q w : get access q w = ((get access q w).1, w).
Proof.
  rewrite <- (get_world access q w) at 3. by destruct (get access q w).
Qed.

(** X1: a rejected permission check stops every operation at once: it
    rejects with the error of the check, and neither the world nor the
    caller's [data] has changed. *)
Theorem permission_denied_changes_nothing access message w :
  (∀ data, can access "proxy_hosts:create" (ResData data) = inl message →
           create access data w = (Err (PermissionError message), data, w)) ∧
  (∀ data, can access "proxy_hosts:update" (ResId (UpdateData.id data)) = inl message →
           update access data w = (Err (PermissionError message), w)) ∧
  (∀ data, can access "proxy_hosts:get" (ResId (GetData.id data)) = inl message →
           get access data w = (Err (PermissionError message), w)) ∧
  (∀ data, can access "proxy_hosts:delete" (ResId (DeleteData.id data)) = inl message →
           delete access data w = (Err (PermissionError message), w)) ∧
  (∀ expand search_query, can access "proxy_hosts:list" ResNone = inl message →
           getAll access expand search_query w = (Err (PermissionError message), w)).
Proof.
  split_and!.
  - intros data C. unfold create, create_promise. run. by rewrite C.
  - intros data C. unfold update. run. by rewrite C.
  - intros data C. unfold get. run. by rewrite C.
  - intros data C. unfold delete. run. by rewrite C.
  - intros expand search_query C. unfold getAll. run. by rewrite C.
Qed.

(** X2: [get], [getAll] and [getCount] only read: whatever they settle
    with, the world after the call is the world before it.  [getCount]
    has no permission check, and its count is not negative. *)
Theorem reads_leave_the_world_unchanged access w :
  (∀ data, (get access data w).2 = w) ∧
  (∀ expand search_query, (getAll access expand search_query w).2 = w) ∧
  (∀ user_id visibility, ∃ count, getCount user_id visibility w = (Ok count, w) ∧ 0 ≤ count).
Proof.
  split_and!.
  - intros data. apply get_world.
  - intros expand search_query. unfold getAll. run.
    by destruct (can access _ _).
  - intros user_id visibility. eexists. split; [done|]. apply Nat2Z.is_nonneg.
Qed.

(** X3: [get] rejects with [ItemNotFoundError] in the same way when no
    record has the id, when the records with the id are soft-deleted, and
    when they belong to someone else while the visibility is not "all":
    the caller cannot tell these apart. *)
Theorem get_not_found access data w ad :
  can access "proxy_hosts:get" (ResId (GetData.id data)) = inr ad →
  (∀ r, r ∈ proxy_host w → Row.id r = GetData.id data →
        Row.is_deleted r = true ∨
        (permission_visibility ad ≠ "all"%string ∧ Row.owner_user_id r ≠ token_id access)) →
  get access data w = (Err (ItemNotFoundError (GetData.id data)), w).
Proof.
  intros C Hnone.
  destruct (get_cases access data w) as [(m & C' & _)|[(ad' & _ & _ & G)|(ad' & row & C' & Q & _)]];
    [congruence | done |].
  rewrite C in C'. simplify_eq.
  apply get_query_Some in Q as [Hin (Hact & Hid & Hown)].
  destruct (Hnone _ Hin Hid) as [Hdel|[Hvis Hother]]; [congruence|].
  by destruct Hother; apply Hown.
Qed.

(** X4: the row [get] resolves with is the first record of the table, in
    storage order, that is active, has the id asked for and, unless the
    visibility is "all", is owned by the actor; its [meta] has been
    cleaned, [is_deleted] is left out after the omissions asked for, and
    the expansions asked for are recorded. *)
Theorem get_resolves_with_first_match access data w row w' :
  get access data w = (Ok (Some row), w') →
  ∃ ad earlier r later,
    can access "proxy_hosts:get" (ResId (GetData.id data)) = inr ad ∧
    proxy_host w = earlier ++ r :: later ∧
    Forall (λ r', ¬ get_where access ad data r') earlier ∧
    get_where access ad data r ∧
    View.fields row = Row.set_meta (cleanMeta (Row.meta r)) r ∧
    View.omitted row = default [] (GetData.omit data) ++ ["is_deleted"%string] ∧
    View.expanded row = default [] (GetData.expand data).
Proof.
  intros G.
  destruct (get_cases access data w) as [(m & _ & G')|[(ad & _ & _ & G')|(ad & row0 & C & Q & G')]];
    rewrite G' in G; [discriminate..|].
  assert (w' = w) as -> by congruence. simplify_eq.
  unfold get_query in Q. apply fmap_Some in Q as (r & Hhead & ->).
  exists ad.
  assert (∃ earlier later, proxy_host w = earlier ++ r :: later ∧
            Forall (λ r', ¬ get_where access ad data r') earlier ∧
            get_where access ad data r) as (earlier & later & Ht & He & Hr).
  { clear G' C. induction (proxy_host w) as [|r0 t IH]; [done|].
    rewrite filter_cons in Hhead. destruct (decide (get_where access ad data r0)) as [Hw|Hw].
    - simpl in Hhead. simplify_eq. by exists [], t.
    - destruct (IH Hhead) as (earlier & later & -> & He & Hr).
      exists (r0 :: earlier), later. split_and!; [done| by constructor |done]. }
  exists earlier, r, later. by split_and!.
Qed.

(** ** How update runs *)

Lemma update_check_state data w : (update_check_domain_names data w).2 = w.
Proof.
  unfold update_check_domain_names. destruct (UpdateData.domain_names data); [|done].
  run. apply check_results_map_state.
Qed.

Lemma create_check_state data w : (create_check_domain_names data w).2 = w.
Proof.
  unfold create_check_domain_names. destruct (CreateData.domain_names data); [|done].
  run. apply check_results_map_state.
Qed.

(** The only error of the inspection of the results is the
    [ValidationError] of a taken result. *)
Lemma check_results_map_Err {S} (l : list CheckResult.t) (s : S) e :
  (check_results_map l s).1 = Err e →
  ∃ result, result ∈ l ∧ CheckResult.is_taken result = true ∧
            e = ValidationError (CheckResult.hostname result +:+ " is already in use").
Proof.
  induction l as [|r l IH]; simpl; [done|].
  destruct (CheckResult.is_taken r) eqn:Ht; simpl.
  - intros [= <-]. exists r. split_and!; [left|done..].
  - intros (result & Hin & Hr)%IH. exists result. split; [by right|done].
Qed.

Lemma update_check_Err data w e :
  (update_check_domain_names data w).1 = Err e → ∃ message, e = ValidationError message.
Proof.
  unfold update_check_domain_names. destruct (UpdateData.domain_names data); [|done].
  run. intros (result & _ & _ & ->)%check_results_map_Err. eauto.
Qed.

(** A patch by id that keeps the ids leaves a record with that id to
    fetch: the patched first record with the id. *)
Lemma patch_where_id_head id f w r :
  r ∈ proxy_host w → Row.id r = id → (∀ r', Row.id (f r') = Row.id r') →
  ∃ r0, r0 ∈ proxy_host w ∧ Row.id r0 = id ∧
        head (filter (λ r', Row.id r' = id) (proxy_host (patch_where_id id f w))) = Some (f r0).
Proof.
  intros Hin Hid Hf. unfold patch_where_id. simpl.
  induction (proxy_host w) as [|r1 t IH]; [by apply elem_of_nil in Hin|].
  rewrite fmap_cons, filter_cons.
  destruct (decide (Row.id r1 = id)) as [H1|H1].
  - rewrite decide_True by (by rewrite Hf). exists r1. split_and!; [left|done..].
  - rewrite decide_False by done.
    apply elem_of_cons in Hin as [->|Hin]; [done|].
    destruct (IH Hin) as (r0 & Hr0 & Hid0 & Hhead). exists r0. split_and!; [by right|done..].
Qed.

(** The four ways [update] can run. *)
Lemma update_cases access data w :
  (∃ m, can access "proxy_hosts:update" (ResId (UpdateData.id data)) = inl m ∧
        update access data w = (Err (PermissionError m), w)) ∨
  (∃ message, update_check_domain_names data w = (Err (ValidationError message), w) ∧
        update access data w = (Err (ValidationError message), w)) ∨
  (∃ e, update_check_domain_names data w = (Ok tt, w) ∧
        get access (GetData.mk (UpdateData.id data) None None) w = (Err e, w) ∧
        update access data w = (Err e, w)) ∨
  (∃ row, update_check_domain_names data w = (Ok tt, w) ∧
        get access (GetData.mk (UpdateData.id data) None None) w = (Ok (Some row), w) ∧
        update access data w = update_row access data (Some row) w).
Proof.
  unfold update. run.
  destruct (can access "proxy_hosts:update" _) as [m|ad0]; run; [left; eauto|]. right.
  pose proof (update_check_state data w) as Hs.
  pose proof (update_check_Err data w) as He.
  destruct (update_check_domain_names data w) as [[[]|e] w0]; simpl in Hs; subst w0.
  - right.
    destruct (get_cases access (GetData.mk (UpdateData.id data) None None) w)
      as [(m & _ & G)|[(ad & _ & _ & G)|(ad & row & _ & _ & G)]]; rewrite G; [left|left|right]; eauto.
  - left. destruct (He e eq_refl) as [message ->]. eauto.
Qed.

(** What the last [.then] of [update] does with the row of [get]: it
    patches the records with the id, then writes the audit entry; when the
    audit recorder rejects, the patch stays. *)
Lemma update_row_after_get access ad data row w :
  get_query access ad (GetData.mk (UpdateData.id data) None None) w = Some row →
  let row := omit omissions (View.set_meta (cleanMeta (View.meta row)) row) in
  let w1 := patch_where_id (UpdateData.id data) (patch_row data) w in
  let entry := AuditEntry.mk "updated" "proxy-host" (UpdateData.id data) (MetaUpdate data) in
  ∃ r0, r0 ∈ proxy_host w ∧ Row.id r0 = UpdateData.id data ∧
    update_row access data (Some row) w =
      match audit_add w1 (token_id access) entry with
      | Some message => (Err (AuditError message), w1)
      | None =>
          (Ok (Some (View.mk (Row.set_meta (cleanMeta (Row.meta (patch_row data r0)))
                                           (patch_row data r0))
                             (omissions ++ omissions) [])),
           add_audit (token_id access, entry) w1)
      end.
Proof.
  intros Q. cbv zeta. apply get_query_Some in Q as [Hin (_ & Hid & _)]. simpl in Hid.
  destruct (patch_where_id_head (UpdateData.id data) (patch_row data) w _ Hin Hid)
    as (r0 & Hr0 & Hid0 & Hhead); [done|].
  exists r0. split_and!; [done..|].
  assert (View.id (omit omissions (View.set_meta (cleanMeta (View.meta row)) row))
          = UpdateData.id data) as Hvid by exact Hid.
  unfold update_row. rewrite Hvid. rewrite decide_False by (by intros []).
  unfold patchAndFetchById, auditLog_add, mbind, M_bind. rewrite Hhead.
  simpl. by destruct (audit_add _ _ _).
Qed.

(** When the check of [update] rejects, [update] rejects with its error
    and the world as it was; when it passes, [update] goes on with [get]
    and its last [.then]. *)
Lemma update_runs_its_check access data w ad :
  can access "proxy_hosts:update" (ResId (UpdateData.id data)) = inr ad →
  match (update_check_domain_names data w).1 with
  | Err e => update access data w = (Err e, w)
  | Ok _ =>
      update access data w =
        (row ← get access (GetData.mk (UpdateData.id data) None None);
         update_row access data row) w
  end.
Proof.
  intros C. unfold update. run. rewrite C. run.
  pose proof (update_check_state data w) as Hs.
  by destruct (update_check_domain_names data w) as [[[]|e] w0]; simpl in *; subst w0.
Qed.

(** [update] rejects with a [ValidationError] exactly when its check
    does. *)
Lemma update_ValidationError_iff access data w ad message :
  can access "proxy_hosts:update" (ResId (UpdateData.id data)) = inr ad →
  update access data w = (Err (ValidationError message), w) ↔
  (update_check_domain_names data w).1 = Err (ValidationError message).
Proof.
  intros C. pose proof (update_runs_its_check access data w ad C) as Hrun.
  destruct ((update_check_domain_names data w).1) as [[]|e] eqn:Hcheck.
  - split; [|done]. rewrite Hrun. intros E. exfalso.
    pose proof (get_not_ValidationError access
                  (GetData.mk (UpdateData.id data) None None) w message) as Hg.
    pose proof (get_world access (GetData.mk (UpdateData.id data) None None) w) as Hw.
    revert E. unfold mbind, M_bind.
    destruct (get access _ w) as [[row|e] w1]; simpl in *; subst w1.
    + intros E. by apply (update_row_not_ValidationError access data row w message); rewrite E.
    + intros [= ->]. done.
  - rewrite Hrun. split; [by intros [= ->]|by intros [= ->]].
Qed.

(** [create] rejects with a [ValidationError] exactly when its check
    does, and then neither the world nor [data] has changed. *)
Lemma create_ValidationError_iff access data w ad message :
  can access "proxy_hosts:create" (ResData data) = inr ad →
  create access data w = (Err (ValidationError message), data, w) ↔
  (create_check_domain_names data w).1 = Err (ValidationError message).
Proof.
  intros C. unfold create, create_promise. run. rewrite C. run.
  pose proof (create_check_state data w) as Hs.
  destruct (create_check_domain_names data w) as [[[]|e] w1]; simpl in Hs; subst w1; simpl.
  - split; [|done]. unfold insertAndFetch, configure. run.
    destruct (nginx_configure _ _) as [m|pm]; simpl; [done|].
    match goal with |- context [get access ?q ?w2] =>
      destruct (get_cases access q w2) as [(m & _ & G)|[(ad' & _ & _ & G)|(ad' & r0 & _ & _ & G)]];
      rewrite G
    end; simpl; [done..|].
    unfold auditLog_add. by destruct (audit_add _ _ _).
  - split; [by intros [= ->]|by intros [= ->]].
Qed.

(** C1: when [data.domain_names] is present, the check that [update] runs
    gives the outcome of the check of [create] on the same names in the
    world without the proxy host [data.id]: the same check, with that one
    record out of consideration.  [update] acts on it as [create] does:
    with both permission checks passed, [update] rejects with a
    [ValidationError] exactly when [create] with those names would in the
    world without that record, with the same message and nothing changed,
    and otherwise goes on to [get] and the patch.  In particular, when the
    names submitted are those of the active host [data.id] itself and
    names are unique among active hosts, the check passes and [update]
    does not reject with a [ValidationError]. *)
Theorem update_check_excludes_own_record access data cdata names w :
  UpdateData.domain_names data = Some names →
  CreateData.domain_names cdata = Some names →
  (update_check_domain_names data w).1 =
    (create_check_domain_names cdata (without_proxy_host (UpdateData.id data) w)).1 ∧
  (∀ own,
     own ∈ proxy_host w →
     Row.id own = UpdateData.id data →
     Row.is_deleted own = false →
     Row.domain_names own = names →
     unique_names w →
     update_check_domain_names data w = (Ok tt, w) ∧
     ∀ message, (update access data w).1 ≠ Err (ValidationError message)) ∧
  (∀ ad creator ad',
     can access "proxy_hosts:update" (ResId (UpdateData.id data)) = inr ad →
     can creator "proxy_hosts:create" (ResData cdata) = inr ad' →
     let w0 := without_proxy_host (UpdateData.id data) w in
     (∀ message,
        update access data w = (Err (ValidationError message), w) ↔
        create creator cdata w0 = (Err (ValidationError message), cdata, w0)) ∧
     ((∀ message, create creator cdata w0 ≠ (Err (ValidationError message), cdata, w0)) →
      update access data w =
        (row ← get access (GetData.mk (UpdateData.id data) None None);
         update_row access data row) w)).
Proof.
  intros Hu Hc.
  pose proof (update_check_as_create_check data cdata names w Hu Hc) as Hsame.
  split_and!; [exact Hsame| |].
  - intros own Hown Hid Hact Hnames Huniq.
    pose proof (update_check_own_names data names w own Hu Hown Hid Hact Hnames Huniq)
      as Hcheck.
    split; [done|]. intros message. unfold update. run.
    destruct (can access _ _) as [m|ad]; run; [done|].
    rewrite Hcheck.
    pose proof (get_not_ValidationError access
                  (GetData.mk (UpdateData.id data) None None) w message) as Hg.
    destruct (get access _ w) as [[row|e] w1]; [|done].
    apply update_row_not_ValidationError.
  - intros ad creator ad' C C' w0. split.
    + intros message.
      rewrite (update_ValidationError_iff access data w ad message C).
      rewrite (create_ValidationError_iff creator cdata w0 ad' message C').
      by rewrite Hsame.
    + intros Hnone. pose proof (update_runs_its_check access data w ad C) as Hrun.
      rewrite Hsame in Hrun. fold w0 in Hrun.
      destruct ((create_check_domain_names cdata w0).1) as [[]|e] eqn:Hcheck; [done|].
      exfalso.
      assert (∃ message, e = ValidationError message) as [message ->].
      { revert Hcheck. unfold create_check_domain_names. rewrite Hc. run.
        intros (result & _ & _ & ->)%check_results_map_Err. eauto. }
      apply (Hnone message).
      by apply (create_ValidationError_iff creator cdata w0 ad' message C').
Qed.

(** X5: for a payload whose [id] is an integer, as the JSDoc of [update]
    declares it and as [UpdateData.id] types it, no run of [update]
    rejects with the [InternalValidationError] of its id check: the row
    that [get] resolves with has the id that was asked for, so
    [row.id !== data.id] is false.  (An id of another JavaScript type, such
    as the string of a number, is outside this statement: [!==] also
    compares the types.) *)
Theorem update_id_check_never_fails access data w message :
  (update access data w).1 ≠ Err (InternalValidationError message).
Proof.
  assert (∀ e, (update access data w).1 = Err e →
               (∃ m, e = PermissionError m) ∨ (∃ m, e = ValidationError m) ∨
               (∃ i, e = ItemNotFoundError i) ∨ (∃ m, e = AuditError m)) as Herr.
  { intros e.
    destruct (update_cases access data w)
      as [(m & _ & U)|[(m & _ & U)|[(e' & _ & G & U)|(row & _ & G & U)]]]; rewrite U.
    - intros [= <-]. eauto.
    - intros [= <-]. eauto.
    - intros [= <-].
      destruct (get_cases access (GetData.mk (UpdateData.id data) None None) w)
        as [(m & _ & G')|[(ad & _ & _ & G')|(ad & row & _ & _ & G')]];
        rewrite G' in G; simplify_eq; eauto 6.
    - destruct (get_cases access (GetData.mk (UpdateData.id data) None None) w)
        as [(m & _ & G')|[(ad & _ & _ & G')|(ad & row0 & _ & Q & G')]];
        rewrite G' in G; simplify_eq.
      destruct (update_row_after_get access ad data row0 w Q) as (r0 & _ & _ & ->).
      destruct (audit_add _ _ _); simpl; [|done]. intros [= <-]. eauto 6. }
  intros E. destruct (Herr _ E) as [[? ?]|[[? ?]|[[? ?]|[? ?]]]]; discriminate.
Qed.

(** The query of [get] finds nothing when every record with the id is
    soft-deleted or out of the actor's scope. *)
Lemma get_query_hidden access ad data w :
  (∀ r, r ∈ proxy_host w → Row.id r = GetData.id data →
        Row.is_deleted r = true ∨
        (permission_visibility ad ≠ "all"%string ∧ Row.owner_user_id r ≠ token_id access)) →
  get_query access ad data w = None.
Proof.
  intros Hnone. apply get_query_None. intros r Hin (Hact & Hid & Hown).
  destruct (Hnone _ Hin Hid) as [Hdel|[Hvis Hother]]; [congruence|].
  by apply Hother, Hown.
Qed.

Lemma get_hidden access ad data w :
  can access "proxy_hosts:get" (ResId (GetData.id data)) = inr ad →
  get_query access ad data w = None →
  get access data w = (Err (ItemNotFoundError (GetData.id data)), w).
Proof.
  intros C Q.
  destruct (get_cases access data w) as [(m & C' & _)|[(ad' & _ & _ & G)|(ad' & row & C' & Q' & _)]];
    [congruence | done | congruence].
Qed.

(** The check of [update] passes when [data.domain_names] is absent or
    none of the names is taken by another host. *)
Definition update_names_free (data : UpdateData.t) (w : World) : Prop :=
  match UpdateData.domain_names data with
  | Some names =>
      Forall (λ n, CheckResult.is_taken
                     (isHostnameTaken n (Some "proxy"%string) (Some (UpdateData.id data)) w)
                   = false) names
  | None => True
  end.

Lemma update_check_passes data w :
  update_names_free data w → update_check_domain_names data w = (Ok tt, w).
Proof.
  unfold update_names_free, update_check_domain_names.
  destruct (UpdateData.domain_names data) as [names|]; [|done]. intros Hfree. run.
  by apply (check_results_map_none_taken
              (λ n, isHostnameTaken n (Some "proxy"%string) (Some (UpdateData.id data)) w)).
Qed.

(** X6: [update] checks the names before it looks for the record.  When
    the permission check passes and [data.domain_names] contains a name
    taken by another host, [update] rejects with the [ValidationError] of
    the first such name in the order of the request and leaves the world
    as it was, whether or not a record with [data.id] exists. *)
Theorem update_reports_first_taken_name access data names w ad :
  can access "proxy_hosts:update" (ResId (UpdateData.id data)) = inr ad →
  UpdateData.domain_names data = Some names →
  Exists (λ n, CheckResult.is_taken
                 (isHostnameTaken n (Some "proxy"%string) (Some (UpdateData.id data)) w)
               = true) names →
  ∃ before name after,
    names = before ++ name :: after ∧
    Forall (λ n, CheckResult.is_taken
                   (isHostnameTaken n (Some "proxy"%string) (Some (UpdateData.id data)) w)
                 = false) before ∧
    CheckResult.is_taken
      (isHostnameTaken name (Some "proxy"%string) (Some (UpdateData.id data)) w) = true ∧
    update access data w = (Err (ValidationError (name +:+ " is already in use")), w).
Proof.
  intros C Hnames Hex.
  destruct (first_taken_split
              (λ n, CheckResult.is_taken
                      (isHostnameTaken n (Some "proxy"%string) (Some (UpdateData.id data)) w))
              names Hex) as (before & name & after & -> & Hbefore & Htaken).
  exists before, name, after. split_and!; [done..|].
  unfold update. run. rewrite C. run.
  unfold update_check_domain_names. rewrite Hnames. run.
  by rewrite (check_results_map_first_taken
                (λ n, isHostnameTaken n (Some "proxy"%string) (Some (UpdateData.id data)) w)
                before after name w Hbefore Htaken).
Qed.

(** X7: when the checks pass but no active record with [data.id] is
    visible to the actor (none has the id, they are soft-deleted, or they
    belong to someone else under a restricted visibility), [update]
    rejects with [ItemNotFoundError]; nothing is patched and nothing is
    audited. *)
Theorem update_not_found access data w ad0 ad :
  can access "proxy_hosts:update" (ResId (UpdateData.id data)) = inr ad0 →
  can access "proxy_hosts:get" (ResId (UpdateData.id data)) = inr ad →
  update_names_free data w →
  (∀ r, r ∈ proxy_host w → Row.id r = UpdateData.id data →
        Row.is_deleted r = true ∨
        (permission_visibility ad ≠ "all"%string ∧ Row.owner_user_id r ≠ token_id access)) →
  update access data w = (Err (ItemNotFoundError (UpdateData.id data)), w).
Proof.
  intros C0 C Hfree Hnone.
  pose proof (update_check_passes data w Hfree) as Hcheck.
  pose proof (get_hidden access ad (GetData.mk (UpdateData.id data) None None) w C
                (get_query_hidden access ad (GetData.mk (UpdateData.id data) None None) w
                                  Hnone)) as G.
  destruct (update_cases access data w)
    as [(m & C' & _)|[(m & K & _)|[(e & _ & G' & U)|(row & _ & G' & _)]]];
    [congruence | congruence | | rewrite G in G'; discriminate].
  rewrite G in G'. by simplify_eq.
Qed.

(** X8: when the permission checks pass, the names are free, an active
    record with [data.id] is visible to the actor and the audit recorder
    does not reject, [update] resolves with a row that has the id asked
    for, a cleaned [meta] and no [is_deleted]; the records with that id
    have been patched and the others left alone, one "updated" audit entry
    carrying the payload has been added, and the publisher has not been
    called. *)
Theorem update_resolves access data w ad0 ad r :
  can access "proxy_hosts:update" (ResId (UpdateData.id data)) = inr ad0 →
  can access "proxy_hosts:get" (ResId (UpdateData.id data)) = inr ad →
  update_names_free data w →
  r ∈ proxy_host w →
  get_where access ad (GetData.mk (UpdateData.id data) None None) r →
  (∀ w' u e, audit_add w' u e = None) →
  ∃ row w',
    update access data w = (Ok (Some row), w') ∧
    View.id row = UpdateData.id data ∧
    "is_deleted"%string ∈ View.omitted row ∧
    (∃ m, View.meta row = cleanMeta m) ∧
    proxy_host w' =
      (λ r', if decide (Row.id r' = UpdateData.id data) then patch_row data r' else r')
        <$> proxy_host w ∧
    audit_log w' =
      audit_log w ++
      [(token_id access,
        AuditEntry.mk "updated" "proxy-host" (UpdateData.id data) (MetaUpdate data))] ∧
    nginx_log w' = nginx_log w ∧
    other_hosts w' = other_hosts w.
Proof.
  intros C0 C Hfree Hin Hwhere Haudit.
  pose proof (update_check_passes data w Hfree) as Hcheck.
  destruct (update_cases access data w)
    as [(m & C' & _)|[(m & K & _)|[(e & _ & G & U)|(row & _ & G & U)]]];
    [congruence | congruence | |].
  - destruct (get_cases access (GetData.mk (UpdateData.id data) None None) w)
      as [(m & C' & _)|[(ad' & C' & Q & _)|(ad' & row & _ & _ & G')]]; simpl in *.
    + congruence.
    + rewrite C in C'. simplify_eq. by destruct (proj1 (get_query_None _ _ _ _) Q r Hin).
    + rewrite G' in G. discriminate.
  - destruct (get_cases access (GetData.mk (UpdateData.id data) None None) w)
      as [(m & _ & G')|[(ad' & _ & _ & G')|(ad' & row0 & _ & Q & G')]];
      rewrite G' in G; simplify_eq.
    destruct (update_row_after_get access ad' data row0 w Q) as (r0 & Hr0 & Hid0 & Hrun).
    rewrite Haudit in Hrun. rewrite U, Hrun.
    do 2 eexists. split; [done|]. simpl. split_and!; try done.
    + unfold omissions. simpl. left.
    + eauto.
Qed.

(** ** What the mutating operations leave behind *)

(** The table after marking the records with an id as deleted. *)
Definition marked_deleted (id : Z) (w : World) : list Row.t :=
  (λ r, if decide (Row.id r = id) then Row.set_is_deleted true r else r) <$> proxy_host w.

(** The effects of the second [.then] of [delete]: the records are marked
    whatever happens next, and the audit entry is written only when every
    call before it has resolved. *)
Lemma delete_row_effects access data row w :
  let w' := (delete_row access data (Some row) w).2 in
  let audited := omit omissions (View.set_meta (cleanMeta (View.meta row)) row) in
  proxy_host w' = marked_deleted (View.id row) w ∧
  other_hosts w' = other_hosts w ∧
  match (delete_row access data (Some row) w).1 with
  | Ok _ =>
      audit_log w' =
        audit_log w ++
        [(token_id access,
          AuditEntry.mk "deleted" "proxy-host" (View.id row) (MetaRow audited))]
  | Err _ => audit_log w' = audit_log w
  end.
Proof.
  cbv zeta. unfold delete_row, patch_is_deleted, deleteConfig, reload, auditLog_add. run.
  destruct (nginx_deleteConfig _ _) as [m|]; simpl; [done|].
  destruct (nginx_reload _) as [m|]; simpl; [done|].
  by destruct (audit_add _ _ _) as [m|].
Qed.

(** The effects of [create] on the audit log and on the trace of
    publisher calls. *)
Lemma create_effects access data w :
  match create access data w with
  | (Ok _, data', w') =>
      ∃ id, audit_log w' =
              audit_log w ++
              [(token_id access,
                AuditEntry.mk "created" "proxy-host" id (MetaCreate data'))] ∧
            nginx_log w' = nginx_log w ++ [(Configure "proxy_host" id, true)]
  | (Err _, _, w') =>
      audit_log w' = audit_log w ∧
      (nginx_log w' = nginx_log w ∨
       ∃ id ok, nginx_log w' = nginx_log w ++ [(Configure "proxy_host" id, ok)])
  end.
Proof.
  unfold create, create_promise. run.
  destruct (can access _ _) as [m|ad]; run; [auto|].
  pose proof (create_check_state data w) as Hs.
  destruct (create_check_domain_names data w) as [[[]|e] w1]; simpl in Hs; subst w1; [|auto].
  unfold insertAndFetch, configure. run.
  destruct (nginx_configure _ _) as [m|pm]; simpl; [eauto|].
  match goal with |- context [get access ?q ?w2] =>
    destruct (get_cases access q w2) as [(m & _ & G)|[(ad' & _ & _ & G)|(ad' & r0 & _ & Q & G)]];
    rewrite G
  end; simpl; [eauto..|].
  unfold auditLog_add. destruct (audit_add _ _ _) as [m|]; simpl; [eauto|].
  apply get_query_Some in Q as [_ (_ & Hid & _)]. simpl in Hid.
  exists (next_id w). split; [|done]. unfold View.id. simpl. by rewrite Hid.
Qed.

(** X9: [create], [update] and [delete] write their audit entry as their
    last step.  A run that resolves has added exactly one entry: for
    [create], "created" with the id of the row it resolves with and the
    caller's [data] as the call left it; for [update], "updated" with
    [data.id] and the payload; for [delete], "deleted" with the id of the
    row that [get] resolved with and that row, its [meta] cleaned again and
    [is_deleted] left out.  A run that rejects has added none, even when
    it had already changed the table or called the publisher. *)
Theorem audit_entry_iff_resolved access w :
  (∀ data,
     match create access data w with
     | (Ok row, data', w') =>
         ∃ r, row = Some r ∧
              audit_log w' =
                audit_log w ++
                [(token_id access,
                  AuditEntry.mk "created" "proxy-host" (View.id r) (MetaCreate data'))]
     | (Err _, _, w') => audit_log w' = audit_log w
     end) ∧
  (∀ data,
     match update access data w with
     | (Ok _, w') =>
         audit_log w' =
           audit_log w ++
           [(token_id access,
             AuditEntry.mk "updated" "proxy-host" (UpdateData.id data) (MetaUpdate data))]
     | (Err _, w') => audit_log w' = audit_log w
     end) ∧
  (∀ data,
     match delete access data w with
     | (Ok _, w') =>
         ∃ got,
           get access (GetData.mk (DeleteData.id data) None None) w = (Ok (Some got), w) ∧
           View.id got = DeleteData.id data ∧
           audit_log w' =
             audit_log w ++
             [(token_id access,
               AuditEntry.mk "deleted" "proxy-host" (View.id got)
                 (MetaRow (omit omissions
                             (View.set_meta (cleanMeta (View.meta got)) got))))]
     | (Err _, w') => audit_log w' = audit_log w
     end).
Proof.
  split_and!.
  - intros data. pose proof (create_effects access data w) as H.
    destruct (create access data w) as [[[row|e] data'] w'] eqn:Hrun; [|by destruct H].
    destruct H as (id & Ha & _).
    apply create_Ok in Hrun as (r & w1 & -> & _ & _ & Hw').
    exists r. split; [done|]. rewrite Ha. do 3 f_equal.
    rewrite Hw' in Ha. simpl in Ha. apply app_inj_tail in Ha as [_ Ha]. congruence.
  - intros data.
    destruct (update_cases access data w)
      as [(m & _ & U)|[(m & _ & U)|[(e & _ & _ & U)|(row & _ & G & U)]]]; rewrite U; [done..|].
    destruct (get_cases access (GetData.mk (UpdateData.id data) None None) w)
      as [(m & _ & G')|[(ad & _ & _ & G')|(ad & row0 & _ & Q & G')]];
      rewrite G' in G; simplify_eq.
    destruct (update_row_after_get access ad data row0 w Q) as (r0 & _ & _ & ->).
    by destruct (audit_add _ _ _).
  - intros data.
    destruct (delete_cases access data w) as [(m & _ & D)|[(e & _ & D)|(row & G & D)]];
      rewrite D; [done..|].
    assert (View.id row = DeleteData.id data) as Hid.
    { destruct (get_cases access (GetData.mk (DeleteData.id data) None None) w)
        as [(m & _ & G')|[(ad & _ & _ & G')|(ad & row0 & _ & Q & G')]];
        rewrite G' in G; simplify_eq.
      by apply get_query_Some in Q as [_ (_ & Hid & _)]. }
    pose proof (delete_row_effects access data row w) as (_ & _ & Ha).
    unfold mbind, M_bind.
    destruct (delete_row access data (Some row) w) as [[[]|e] w']; simpl in *; [|done].
    exists row. by split_and!.
Qed.

(** X10: [update] never calls the publisher, in no run; [create] calls it
    at most once, for [configure] on the host type "proxy_host", and never
    asks for a removal or a reload. *)
Theorem publisher_calls_of_update_and_create access w :
  (∀ data, nginx_log (update access data w).2 = nginx_log w) ∧
  (∀ data, ∃ calls,
     nginx_log (create access data w).2 = nginx_log w ++ calls ∧
     (calls = [] ∨ ∃ id ok, calls = [(Configure "proxy_host" id, ok)])).
Proof.
  split.
  - intros data.
    destruct (update_cases access data w)
      as [(m & _ & U)|[(m & _ & U)|[(e & _ & _ & U)|(row & _ & G & U)]]]; rewrite U; [done..|].
    destruct (get_cases access (GetData.mk (UpdateData.id data) None None) w)
      as [(m & _ & G')|[(ad & _ & _ & G')|(ad & row0 & _ & Q & G')]];
      rewrite G' in G; simplify_eq.
    destruct (update_row_after_get access ad data row0 w Q) as (r0 & _ & _ & ->).
    by destruct (audit_add _ _ _).
  - intros data. pose proof (create_effects access data w) as H.
    destruct (create access data w) as [[[row|e] data'] w']; simpl.
    + destruct H as (id & _ & Hn). eauto 6.
    + destruct H as [_ [Hn|(id & ok & Hn)]].
      * exists []. rewrite app_nil_r. auto.
      * eauto 6.
Qed.


(** X11: [delete] erases nothing.  In every run the table afterwards is
    the table before, or the table before with the records of [data.id]
    marked as deleted and every other record as it was; the host records
    of other types are untouched.  Once the permission check has passed
    and [get] has found the row, the records are marked whatever the
    publisher and the audit recorder do afterwards: the mark is not taken
    back when a later step rejects. *)
Theorem delete_only_marks_records access data w :
  let w' := (delete access data w).2 in
  other_hosts w' = other_hosts w ∧
  (proxy_host w' = proxy_host w ∨ proxy_host w' = marked_deleted (DeleteData.id data) w) ∧
  (∀ ad row,
     can access "proxy_hosts:delete" (ResId (DeleteData.id data)) = inr ad →
     get access (GetData.mk (DeleteData.id data) None None) w = (Ok (Some row), w) →
     proxy_host w' = marked_deleted (DeleteData.id data) w).
Proof.
  cbv zeta.
  assert (∀ row, get access (GetData.mk (DeleteData.id data) None None) w = (Ok (Some row), w) →
                 View.id row = DeleteData.id data) as Hid.
  { intros row G.
    destruct (get_cases access (GetData.mk (DeleteData.id data) None None) w)
      as [(m & _ & G')|[(ad & _ & _ & G')|(ad & row0 & _ & Q & G')]];
      rewrite G' in G; simplify_eq.
    by apply get_query_Some in Q as [_ (_ & Hid & _)]. }
  destruct (delete_cases access data w) as [(m & C & D)|[(e & G & D)|(row & G & D)]];
    rewrite D; simpl.
  - split_and!; [done|by left|]. intros ad row C'. congruence.
  - split_and!; [done|by left|]. intros ad row _ G'. congruence.
  - rewrite bind_ret_state.
    destruct (delete_row_effects access data row w) as (Ht & Ho & _).
    rewrite (Hid _ G) in Ht. split_and!; [done|by right|done].
Qed.


(** ** What getAll and getCount return *)

Lemma NoDup_ids_filter (P : Row.t → Prop) `{∀ r, Decision (P r)} (rows : list Row.t) :
  NoDup (Row.id <$> rows) → NoDup (Row.id <$> filter P rows).
Proof.
  intros Hnd. eapply sublist_NoDup; [exact Hnd|]. apply fmap_sublist. by apply sublist_filter.
Qed.

(** A table with distinct ids has one record per id. *)
Lemma NoDup_ids_eq (rows : list Row.t) r1 r2 :
  NoDup (Row.id <$> rows) → r1 ∈ rows → r2 ∈ rows → Row.id r1 = Row.id r2 → r1 = r2.
Proof.
  induction rows as [|r rows IH]; [by intros _ ?%elem_of_nil|].
  rewrite fmap_cons, NoDup_cons, !elem_of_cons. intros [Hnotin Hnd] [->|H1] [->|H2] Hid.
  - done.
  - destruct Hnotin. rewrite Hid. by apply list_elem_of_fmap_2.
  - destruct Hnotin. rewrite <- Hid. by apply list_elem_of_fmap_2.
  - by apply IH.
Qed.

Lemma groupBy_id_NoDup rows : NoDup (Row.id <$> groupBy_id rows).
Proof.
  induction rows as [|r rest IH]; simpl; [constructor|].
  apply NoDup_cons. split.
  - intros (r' & Hid & Hin)%list_elem_of_fmap. apply list_elem_of_filter in Hin as [Hne _]. done.
  - by apply NoDup_ids_filter.
Qed.

Lemma groupBy_id_complete rows r :
  r ∈ rows → ∃ r', r' ∈ groupBy_id rows ∧ Row.id r' = Row.id r.
Proof.
  induction rows as [|r0 rest IH]; [by intros ?%elem_of_nil|].
  simpl. intros [->|Hin]%elem_of_cons.
  - exists r0. split; [left|done].
  - destruct (decide (Row.id r = Row.id r0)) as [Heq|Hne].
    + exists r0. split; [left|done].
    + destruct (IH Hin) as (r' & Hr' & Hid). exists r'. split; [|done].
      right. apply list_elem_of_filter. split; [congruence|done].
Qed.

Lemma groupBy_id_distinct rows : NoDup (Row.id <$> rows) → groupBy_id rows = rows.
Proof.
  induction rows as [|r rest IH]; [done|].
  rewrite fmap_cons, NoDup_cons. intros [Hnotin Hnd]. simpl. rewrite (IH Hnd). f_equal.
  clear IH Hnd. induction rest as [|r' rest IH]; [done|].
  rewrite fmap_cons, not_elem_of_cons in Hnotin. destruct Hnotin as [Hne Hnotin].
  rewrite filter_cons, decide_True by done. f_equal. by apply IH.
Qed.

(** X13: every row that [getAll] resolves with comes from a stored record
    that is active, is owned by the actor unless the visibility is "all",
    and matches the pattern [%search_query%] when a search is given; its
    [meta] has been cleaned, [is_deleted] is left out and the expansions
    asked for are recorded. *)
Theorem getAll_rows_are_stored_matches access expand search_query w rows w' :
  getAll access expand search_query w = (Ok rows, w') →
  ∃ ad, can access "proxy_hosts:list" ResNone = inr ad ∧
    Forall (λ row,
      ∃ r, r ∈ proxy_host w ∧
           Row.is_deleted r = false ∧
           (permission_visibility ad ≠ "all"%string → Row.owner_user_id r = token_id access) ∧
           (∀ q, search_query = Some q → like (Row.domain_names r) ("%" +:+ q +:+ "%") = true) ∧
           View.fields row = Row.set_meta (cleanMeta (Row.meta r)) r ∧
           View.omitted row = ["is_deleted"%string] ∧
           View.expanded row = default [] expand) rows.
Proof.
  intros (ad & C & _ & ->)%getAll_Ok. exists ad. split; [done|].
  apply Forall_fmap, Forall_forall. intros row Hrow.
  pose proof (getAll_query_elem_of _ _ _ _ _ _ Hrow) as [Hin (Hact & Hown & Hlike)].
  unfold getAll_query in Hrow. apply list_elem_of_fmap in Hrow as (r & -> & _). simpl in *.
  exists r. split_and!; try done.
  intros q ->. done.
Qed.

(** X14: [getAll] lists each id once, and misses none: no two rows of the
    result have the same id, and every stored record that is active,
    visible to the actor and matched by the search has a row with its id
    in the result. *)
Theorem getAll_lists_each_id_once access expand search_query w rows w' :
  getAll access expand search_query w = (Ok rows, w') →
  NoDup (View.id <$> rows) ∧
  ∃ ad, can access "proxy_hosts:list" ResNone = inr ad ∧
        ∀ r, r ∈ proxy_host w → getAll_where access ad search_query r →
             Row.id r ∈ View.id <$> rows.
Proof.
  intros (ad & C & _ & ->)%getAll_Ok.
  assert (View.id <$> ((λ row, View.set_meta (cleanMeta (View.meta row)) row)
                         <$> getAll_query access ad expand search_query w)
          = Row.id <$> merge_sort orderBy_domain_names
              (groupBy_id (filter (getAll_where access ad search_query) (proxy_host w))))
    as ->.
  { unfold getAll_query. rewrite <- !list_fmap_compose. by apply list_fmap_ext. }
  split.
  - rewrite merge_sort_Permutation. apply groupBy_id_NoDup.
  - exists ad. split; [done|]. intros r Hin Hwhere.
    rewrite merge_sort_Permutation.
    destruct (groupBy_id_complete (filter (getAll_where access ad search_query) (proxy_host w)) r)
      as (r' & Hr' & <-); [by apply list_elem_of_filter|].
    by apply list_elem_of_fmap_2.
Qed.

(** X15: [getCount] with the visibility "all" counts every active record,
    whatever the [user_id] given; with any other visibility it counts the
    active records of [user_id] only, so never more. *)
Theorem getCount_all_counts_every_active_record user_id visibility w :
  ∃ scoped all,
    getCount user_id visibility w = (Ok scoped, w) ∧
    (∀ other, getCount other "all" w = (Ok all, w)) ∧
    all = Z.of_nat (length (filter (λ r, Row.is_deleted r = false) (proxy_host w))) ∧
    0 ≤ scoped ≤ all ∧
    (visibility ≠ "all"%string →
     scoped = Z.of_nat (length (filter (λ r, Row.is_deleted r = false ∧
                                             Row.owner_user_id r = user_id) (proxy_host w)))).
Proof.
  assert (∀ other, getCount_rows other "all" w
                   = filter (λ r, Row.is_deleted r = false) (proxy_host w)) as Hall.
  { intros other. unfold getCount_rows. apply list_filter_iff.
    intros r. unfold getCount_where. split; [by intros [? _]|]. intros ?. by split. }
  assert (getCount_rows user_id visibility w
          = filter (getCount_where user_id visibility)
                   (filter (λ r, Row.is_deleted r = false) (proxy_host w))) as Hscoped.
  { unfold getCount_rows. rewrite list_filter_filter. apply list_filter_iff.
    intros r. unfold getCount_where. split; [by intros [? ?]|]. by intros [[? ?] _]. }
  do 2 eexists. split_and!; [done| |done| | |].
  - intros other. unfold getCount. run. by rewrite Hall.
  - apply Nat2Z.is_nonneg.
  - apply inj_le. rewrite Hscoped. apply length_filter.
  - intros Hvis. do 2 f_equal. unfold getCount_rows. apply list_filter_iff.
    intros r. unfold getCount_where. split; [intros [? Ho]; auto|]. intros [? ?]. by split.
Qed.

(** X16: when the ids of the table are distinct, [getCount] for the
    actor and the actor's visibility is the number of rows that [getAll]
    without a search resolves with. *)
Theorem getCount_is_length_of_getAll access expand w rows w' ad :
  NoDup (Row.id <$> proxy_host w) →
  can access "proxy_hosts:list" ResNone = inr ad →
  getAll access expand None w = (Ok rows, w') →
  getCount (token_id access) (permission_visibility ad) w = (Ok (Z.of_nat (length rows)), w).
Proof.
  intros Hnd C (ad' & C' & _ & ->)%getAll_Ok. rewrite C in C'. simplify_eq.
  unfold getCount. run. do 3 f_equal.
  unfold getAll_query. rewrite !length_fmap, merge_sort_Permutation.
  rewrite groupBy_id_distinct by (by apply NoDup_ids_filter).
  unfold getCount_rows. f_equal. apply list_filter_iff.
  intros r. unfold getCount_where, getAll_where. split; [by intros [? ?]|]. by intros (? & ? & _).
Qed.

(** X17: what [getAll] lists, [get] finds: with the same access data for
    both permissions, [get] on the id of a listed row resolves with a row
    of that id, and with the same record when the ids of the table are
    distinct. *)
Theorem listed_rows_can_be_got access expand search_query w rows w' ad :
  can access "proxy_hosts:list" ResNone = inr ad →
  (∀ id, can access "proxy_hosts:get" (ResId id) = inr ad) →
  getAll access expand search_query w = (Ok rows, w') →
  Forall (λ row,
    ∃ row', get access (GetData.mk (View.id row) None None) w = (Ok (Some row'), w) ∧
            View.id row' = View.id row ∧
            (NoDup (Row.id <$> proxy_host w) → View.fields row' = View.fields row)) rows.
Proof.
  intros C Cget (ad' & C' & _ & ->)%getAll_Ok. rewrite C in C'. simplify_eq.
  apply Forall_fmap, Forall_forall. intros row Hrow.
  pose proof (getAll_query_elem_of _ _ _ _ _ _ Hrow) as [Hin (Hact & Hown & _)].
  unfold getAll_query in Hrow. apply list_elem_of_fmap in Hrow as (r & -> & _). simpl in *.
  set (q := GetData.mk (Row.id r) None None).
  destruct (get_cases access q w) as [(m & C' & _)|[(ad1 & C' & Q & _)|(ad1 & row' & C' & Q & G)]];
    simpl in C'; rewrite Cget in C'; simplify_eq.
  - exfalso. by apply (proj1 (get_query_None _ _ _ _) Q r Hin).
  - eexists. split; [exact G|].
    apply get_query_Some in Q as [Hin' (Hact' & Hid' & _)]. simpl in Hid'.
    split; [exact Hid'|]. intros Hnd. simpl.
    unfold View.meta. simpl. by rewrite (NoDup_ids_eq _ _ _ Hnd Hin' Hin Hid').
Qed.

(** ** How create runs *)

(** The record that [create] inserts for a payload. *)
Definition inserted_row (access : Access) (data : CreateData.t) (w : World) : Row.t :=
  Row.mk (next_id w) (token_id access)
         (default [] (CreateData.domain_names data))
         (default ∅ (CreateData.meta data))
         false (CreateData.columns data).

(** The world right after the insertion. *)
Definition inserted_world (access : Access) (data : CreateData.t) (w : World) : World :=
  set_proxy_host (proxy_host w ++ [inserted_row access data w]) w.

(** What the rows handed back to the callers have in common: no
    [is_deleted], and a [meta] that went through [cleanMeta]. *)
Definition sanitized (row : View.t) : Prop :=
  "is_deleted"%string ∈ View.omitted row ∧ ∃ m, View.meta row = cleanMeta m.

Lemma create_check_passes data names w :
  CreateData.domain_names data = Some names →
  Forall (λ n, CheckResult.is_taken (isHostnameTaken n None None w) = false) names →
  create_check_domain_names data w = (Ok tt, w).
Proof.
  intros Hnames Hfree. unfold create_check_domain_names. rewrite Hnames. run.
  by apply (check_results_map_none_taken (λ n, isHostnameTaken n None None w)).
Qed.

(** The id of the next record is above every id of the table. *)
Lemma next_id_fresh w r : r ∈ proxy_host w → Row.id r < next_id w.
Proof.
  unfold next_id. induction (proxy_host w) as [|r0 t IH]; [by intros ?%elem_of_nil|].
  change (foldr Z.max 0 (Row.id <$> r0 :: t))
    with (Z.max (Row.id r0) (foldr Z.max 0 (Row.id <$> t))).
  intros [->|Hin]%elem_of_cons; [lia|]. specialize (IH Hin). lia.
Qed.

(** A patch by id leaves the records with other ids as they are. *)
Lemma patch_other_ids id (f : Row.t → Row.t) (t : list Row.t) :
  Forall (λ r, Row.id r ≠ id) t →
  (λ r, if decide (Row.id r = id) then f r else r) <$> t = t.
Proof.
  induction 1 as [|r t Hr _ IH]; [done|].
  rewrite fmap_cons, IH. by rewrite decide_False.
Qed.

(** After the insertion and a patch of its [meta], the query of [get] for
    the new id finds the inserted record, whatever the visibility. *)
Lemma get_query_inserted access ad data w pm w2 expand :
  proxy_host w2 =
    proxy_host (patch_where_id (next_id w) (Row.set_meta pm) (inserted_world access data w)) →
  get_query access ad (GetData.mk (next_id w) expand None) w2 =
    Some (View.mk (Row.set_meta pm (inserted_row access data w)) [] (default [] expand)).
Proof.
  intros Ht. unfold get_query. rewrite Ht. unfold patch_where_id, inserted_world. simpl.
  rewrite fmap_app, filter_app. simpl.
  assert (filter (get_where access ad (GetData.mk (next_id w) expand None))
            ((λ r, if decide (Row.id r = next_id w) then Row.set_meta pm r else r)
               <$> proxy_host w) = []) as ->.
  { pose proof (next_id_fresh w) as Hfresh.
    induction (proxy_host w) as [|r t IH]; [done|].
    rewrite fmap_cons, filter_cons.
    assert (Row.id r < next_id w) as Hlt by (apply Hfresh; left).
    rewrite decide_False.
    - apply IH. intros r' Hr'. apply Hfresh. by right.
    - intros (_ & Hid & _). simpl in Hid. destruct (decide _); simpl in *; lia. }
  rewrite decide_True by done. rewrite filter_cons, decide_True; [done|].
  split_and!; done.
Qed.

(** X18: [create] does not undo what it has done.  When the permission
    check and the name checks pass but the publisher rejects, [create]
    rejects with the publisher's error; the record stays inserted, no
    audit entry is written, and the caller's [data] keeps the
    [owner_user_id] that was assigned to it while its [meta] is as the
    caller gave it. *)
Theorem create_is_not_rolled_back access data names w ad message :
  can access "proxy_hosts:create" (ResData data) = inr ad →
  CreateData.domain_names data = Some names →
  Forall (λ n, CheckResult.is_taken (isHostnameTaken n None None w) = false) names →
  nginx_configure
    (inserted_world access data w)
    (View.mk (inserted_row access data w) omissions []) = inl message →
  create access data w =
    (Err (NginxError message),
     CreateData.set_owner_user_id (token_id access) data,
     add_nginx (Configure "proxy_host" (next_id w), false) (inserted_world access data w)).
Proof.
  intros C Hnames Hfree Hfail.
  unfold create, create_promise. run. rewrite C. run.
  rewrite (create_check_passes data names w Hnames Hfree).
  unfold insertAndFetch, configure. run.
  unfold inserted_world, inserted_row in Hfail. simpl in Hfail. by rewrite Hfail.
Qed.

(** X19: when the permission checks pass, no name is taken (or the list
    of names is empty) and neither the publisher nor the audit recorder
    rejects, [create] resolves with the row of the new record: it is owned
    by the actor whatever [owner_user_id] the caller sent, has the names
    asked for, is active, carries the cleaned [meta] left by the
    publisher, has no [is_deleted] and has [owner] expanded. *)
Theorem create_resolves access data names w ad0 ad pm :
  can access "proxy_hosts:create" (ResData data) = inr ad0 →
  can access "proxy_hosts:get" (ResId (next_id w)) = inr ad →
  CreateData.domain_names data = Some names →
  Forall (λ n, CheckResult.is_taken (isHostnameTaken n None None w) = false) names →
  nginx_configure
    (inserted_world access data w)
    (View.mk (inserted_row access data w) omissions []) = inr pm →
  (∀ w' u e, audit_add w' u e = None) →
  ∃ row data' w',
    create access data w = (Ok (Some row), data', w') ∧
    Row.owner_user_id (View.fields row) = token_id access ∧
    Row.domain_names (View.fields row) = names ∧
    Row.is_deleted (View.fields row) = false ∧
    View.meta row = cleanMeta pm ∧
    View.omitted row = ["is_deleted"%string] ∧
    View.expanded row = [owner] ∧
    (View.fields row ∉ proxy_host w) ∧
    proxy_host w' = proxy_host w ++ [Row.set_meta pm (inserted_row access data w)].
Proof.
  intros C0 C Hnames Hfree Hconf Haudit.
  unfold create, create_promise. run. rewrite C0. run.
  rewrite (create_check_passes data names w Hnames Hfree).
  unfold insertAndFetch, configure. run.
  unfold inserted_world, inserted_row in Hconf. simpl in Hconf. rewrite Hconf.
  unfold View.id at 1 2 3. simpl.
  match goal with |- context [get access ?q ?w2] =>
    destruct (get_cases access q w2) as [(m & C' & _)|[(ad' & C' & Q & _)|(ad' & r0 & C' & Q & G)]];
    simpl in C'; rewrite C in C'; simplify_eq
  end.
  - match type of Q with get_query _ _ ?q ?w2 = _ =>
      pose proof (get_query_inserted access ad' data w pm w2 (Some [owner]) eq_refl
                  : get_query access ad' q w2 = _) as Q'
    end.
    rewrite Q' in Q. discriminate.
  - match type of Q with get_query _ _ ?q ?w2 = _ =>
      pose proof (get_query_inserted access ad' data w pm w2 (Some [owner]) eq_refl
                  : get_query access ad' q w2 = _) as Q'
    end.
    rewrite Q' in Q. simplify_eq. rewrite G. simpl. unfold auditLog_add. rewrite Haudit. simpl.
    do 3 eexists. split; [done|]. simpl. rewrite Hnames. split_and!; try done.
    + intros Hin. apply next_id_fresh in Hin. simpl in Hin. lia.
    + unfold patch_where_id, inserted_row. simpl. rewrite fmap_app, Hnames. simpl.
      rewrite decide_True by done. f_equal.
      apply patch_other_ids. apply Forall_forall. intros r Hr.
      apply next_id_fresh in Hr. lia.
Qed.

(** X20: the row [create] resolves with is what [get] gives afterwards:
    a [get] by the same actor for the id of the row, with [owner]
    expanded, in the world that [create] left, resolves with that row. *)
Theorem create_then_get access data w row data' w' :
  create access data w = (Ok (Some row), data', w') →
  get access (GetData.mk (View.id row) (Some [owner]) None) w' = (Ok (Some row), w').
Proof.
  intros (r & w1 & [= <-] & G & _ & ->)%create_Ok.
  rewrite get_run.
  rewrite <- (get_table access _ w1 (add_audit _ w1)) by done.
  by rewrite G.
Qed.

(** X21: every row handed back to a caller is sanitized: the rows of
    [get], [getAll], [update] and [create] have no [is_deleted] and a
    [meta] that went through [cleanMeta]. *)
Theorem returned_rows_are_sanitized access w :
  (∀ data row w', get access data w = (Ok (Some row), w') → sanitized row) ∧
  (∀ expand search_query rows w',
     getAll access expand search_query w = (Ok rows, w') → Forall sanitized rows) ∧
  (∀ data row w', update access data w = (Ok (Some row), w') → sanitized row) ∧
  (∀ data row data' w', create access data w = (Ok (Some row), data', w') → sanitized row).
Proof.
  assert (∀ data w0 row w', get access data w0 = (Ok (Some row), w') → sanitized row) as Hget.
  { intros data w0 row w' G.
    destruct (get_cases access data w0) as [(m & _ & G')|[(ad & _ & _ & G')|(ad & row0 & _ & _ & G')]];
      rewrite G' in G; simplify_eq.
    split; [|by eexists]. simpl. apply elem_of_app. right. left. }
  split_and!.
  - intros data. apply Hget.
  - intros expand search_query rows w' (ad & _ & _ & ->)%getAll_Ok.
    apply Forall_fmap, Forall_forall. intros row Hrow.
    unfold getAll_query in Hrow. apply list_elem_of_fmap in Hrow as (r & -> & _).
    split; [left|by eexists].
  - intros data row w' U.
    destruct (update_cases access data w)
      as [(m & _ & U')|[(m & _ & U')|[(e & _ & _ & U')|(row0 & _ & G & U')]]];
      rewrite U' in U; [discriminate..|].
    destruct (get_cases access (GetData.mk (UpdateData.id data) None None) w)
      as [(m & _ & G')|[(ad & _ & _ & G')|(ad & row1 & _ & Q & G')]];
      rewrite G' in G; simplify_eq.
    destruct (update_row_after_get access ad data row1 w Q) as (r0 & _ & _ & Hrun).
    rewrite Hrun in U. destruct (audit_add _ _ _); simplify_eq.
    split; [left|by eexists].
  - intros data row data' w' (r & w1 & [= <-] & G & _)%create_Ok. by eapply Hget.
Qed.

(** X22: a missing [domain_names] is an error for [create] and a skipped
    check for [update].  Once its permission check has passed, [create]
    on a payload without [domain_names] rejects with a [TypeError] before
    anything is inserted or assigned; [update] on a payload without
    [domain_names] does not consult the registry and never rejects with a
    [ValidationError]. *)
Theorem missing_domain_names access w :
  (∀ data ad,
     can access "proxy_hosts:create" (ResData data) = inr ad →
     CreateData.domain_names data = None →
     create access data w = (Err TypeError, data, w)) ∧
  (∀ data,
     UpdateData.domain_names data = None →
     update_check_domain_names data w = (Ok tt, w) ∧
     ∀ message, (update access data w).1 ≠ Err (ValidationError message)).
Proof.
  split.
  - intros data ad C Hnames. unfold create, create_promise. run. rewrite C. run.
    unfold create_check_domain_names. by rewrite Hnames.
  - intros data Hnames.
    assert (update_check_domain_names data w = (Ok tt, w)) as Hcheck
      by (unfold update_check_domain_names; by rewrite Hnames).
    split; [done|]. intros message.
    destruct (update_cases access data w)
      as [(m & _ & U)|[(m & K & _)|[(e & _ & G & U)|(row & _ & _ & U)]]].
    + by rewrite U.
    + congruence.
    + rewrite U. simpl. intros [= ->].
      by apply (get_not_ValidationError access
                  (GetData.mk (UpdateData.id data) None None) w message); rewrite G.
    + rewrite U. apply update_row_not_ValidationError.
Qed.

(** ** More on delete *)

(** X23: when no active record with [data.id] is visible to the actor,
    [delete] rejects with the [ItemNotFoundError] of [get]; nothing is
    marked, the publisher is not called and nothing is audited. *)
Theorem delete_not_found access data w ad0 ad :
  can access "proxy_hosts:delete" (ResId (DeleteData.id data)) = inr ad0 →
  can access "proxy_hosts:get" (ResId (DeleteData.id data)) = inr ad →
  (∀ r, r ∈ proxy_host w → Row.id r = DeleteData.id data →
        Row.is_deleted r = true ∨
        (permission_visibility ad ≠ "all"%string ∧ Row.owner_user_id r ≠ token_id access)) →
  delete access data w = (Err (ItemNotFoundError (DeleteData.id data)), w).
Proof.
  intros C0 C Hnone.
  pose proof (get_hidden access ad (GetData.mk (DeleteData.id data) None None) w C
                (get_query_hidden access ad (GetData.mk (DeleteData.id data) None None) w
                                  Hnone)) as G.
  destruct (delete_cases access data w) as [(m & C' & _)|[(e & G' & D)|(row & G' & _)]].
  - congruence.
  - rewrite G in G'. by simplify_eq.
  - rewrite G in G'. discriminate.
Qed.



End ProxyHost.

(** ** The operations on the concrete world *)

Lemma string_leb_trans a b c :
  String.leb a b = true → String.leb b c = true → String.leb a c = true.
Proof.
  unfold String.leb.
  destruct (String.compare a b) eqn:Eab; [| |discriminate]; intros _.
  - by apply String.compare_eq_iff in Eab as ->.
  - destruct (String.compare b c) eqn:Ebc; [| |discriminate]; intros _.
    + apply String.compare_eq_iff in Ebc as <-. by rewrite Eab.
    + apply OrderedTypeEx.String_as_OT.cmp_lt in Eab, Ebc.
      pose proof (OrderedTypeEx.String_as_OT.lt_trans _ _ _ Eab Ebc) as Hac.
      apply OrderedTypeEx.String_as_OT.cmp_lt in Hac.
      unfold OrderedTypeEx.String_as_OT.cmp in Hac. by rewrite Hac.
Qed.

#[global] Instance example_names_le_total : Total example_names_le.
Proof. intros a b. apply String.leb_total. Qed.

#[global] Instance example_names_le_trans : Transitive example_names_le.
Proof. intros a b c. apply string_leb_trans. Qed.

(** Names are unique among the active hosts of [example_world]. *)
Lemma example_world_unique_names : unique_names example_world.
Proof.
  intros n h1 h2 H1 H2 [A1 N1] [A2 N2].
  unfold all_hosts, example_world in H1, H2. simpl in H1, H2.
  repeat (apply elem_of_cons in H1 as [->|H1]); [..|by apply elem_of_nil in H1].
  all: repeat (apply elem_of_cons in H2 as [->|H2]); [..|by apply elem_of_nil in H2].
  all: simpl in *; try done.
  all: apply list_elem_of_singleton in N1, N2; by simplify_eq.
Qed.

(** The run of [create] on [example_data]. *)
Lemma example_create_run :
  create example_cleanMeta example_configure example_audit_add
         example_access example_data example_world =
    (Ok (Some example_created_row), example_created_data, example_created_world).
Proof. vm_compute. reflexivity. Qed.

(** Host 5 resubmits its own name: the check is the check of [create]
    without host 5, it passes, and [update] goes on to [get].  Host 5 asks
    for the name of host 6 as well: [update] rejects as [create] does in
    the world without host 5. *)
Lemma update_check_excludes_own_record_witness :
  (update_check_domain_names example_update_data example_world).1 =
    (create_check_domain_names
       (CreateData.mk (Some ["a.example.com"%string]) None None ∅)
       (without_proxy_host 5 example_world)).1 ∧
  update_check_domain_names example_update_data example_world = (Ok tt, example_world) ∧
  (∀ message,
    (update example_cleanMeta example_audit_add example_access
            example_update_data example_world).1 ≠ Err (ValidationError message)) ∧
  update example_cleanMeta example_audit_add example_access example_update_data
         example_world =
    (row ← get example_cleanMeta example_access (GetData.mk 5 None None);
     update_row example_cleanMeta example_audit_add example_access example_update_data row)
      example_world ∧
  update example_cleanMeta example_audit_add example_access example_update_taken
         example_world =
    (Err (ValidationError "b.example.com is already in use"), example_world).
Proof.
  destruct (update_check_excludes_own_record example_cleanMeta example_configure
              example_audit_add example_access example_update_data
              (CreateData.mk (Some ["a.example.com"%string]) None None ∅)
              ["a.example.com"%string] example_world eq_refl eq_refl)
    as (Hsame & Hown & Hperm).
  destruct (Hperm {| permission_visibility := "user" |} example_access
                  {| permission_visibility := "user" |} eq_refl eq_refl) as [_ Hgo].
  destruct (update_check_excludes_own_record example_cleanMeta example_configure
              example_audit_add example_access example_update_taken
              (CreateData.mk (Some ["a.example.com"; "b.example.com"]%string) None None ∅)
              ["a.example.com"; "b.example.com"]%string example_world eq_refl eq_refl)
    as (_ & _ & Hperm').
  destruct (Hperm' {| permission_visibility := "user" |} example_access
                   {| permission_visibility := "user" |} eq_refl eq_refl) as [Hiff _].
  split_and!.
  - exact Hsame.
  - apply (Hown host_a); [constructor | reflexivity | reflexivity | reflexivity |].
    exact example_world_unique_names.
  - apply (Hown host_a); [constructor | reflexivity | reflexivity | reflexivity |].
    exact example_world_unique_names.
  - apply Hgo. intros message E. vm_compute in E. discriminate.
  - apply Hiff. vm_compute. reflexivity.
Defined.

(** Host 5 is deleted once; the second [delete] does not find it. *)
Lemma delete_twice_witness :
  ∃ w1,
    delete example_cleanMeta example_deleteConfig example_reload example_audit_add
           example_access (DeleteData.mk 5 None) example_world = (Ok true, w1) ∧
    delete example_cleanMeta example_deleteConfig example_reload example_audit_add
           example_access (DeleteData.mk 5 None) w1 = (Err (ItemNotFoundError 5), w1).
Proof.
  apply (delete_twice example_cleanMeta example_deleteConfig example_reload
           example_audit_add example_access (DeleteData.mk 5 None) example_world host_a
           {| permission_visibility := "user" |} {| permission_visibility := "user" |}).
  - reflexivity.
  - reflexivity.
  - constructor.
  - split_and!; [reflexivity | reflexivity | intros _; reflexivity].
  - intros w' v. reflexivity.
  - intros w'. reflexivity.
  - intros w' u e. reflexivity.
Defined.

(** With a removal that rejects, [delete] stops there: no reload, no audit
    entry, and host 5 stays marked as deleted. *)
Example delete_with_failing_deleteConfig :
  delete example_cleanMeta failing_deleteConfig example_reload example_audit_add
         example_access (DeleteData.mk 5 None) example_world =
    (Err (NginxError "could not remove the configuration"),
     mkWorld [Row.set_is_deleted true host_a; host_b; host_c; host_0]
             [("redirection"%string, host_r)] []
             [(DeleteConfig "proxy_host" 5, false)]).
Proof. vm_compute. reflexivity. Qed.

(** The last [.then] of [update] on a row with another id than the
    payload's. *)
Example update_row_on_another_row :
  update_row example_cleanMeta example_audit_add example_access example_update_data
             (Some (View.mk host_b [] [])) example_world =
    (Err (InternalValidationError
            "Proxy Host could not be updated, IDs do not match: 6 !== 5"),
     example_world).
Proof. vm_compute. reflexivity. Qed.

(** Two of the three names are taken; the first of them in the request is
    reported. *)
Lemma create_reports_first_taken_name_witness :
  ∃ before name after,
    ["new.example.com"; "b.example.com"; "a.example.com"]%string = before ++ name :: after ∧
    Forall (λ n, CheckResult.is_taken (isHostnameTaken n None None example_world) = false)
           before ∧
    CheckResult.is_taken (isHostnameTaken name None None example_world) = true ∧
    create example_cleanMeta example_configure example_audit_add
           example_access example_taken_data example_world =
      (Err (ValidationError (name +:+ " is already in use")), example_taken_data,
       example_world).
Proof.
  apply (create_reports_first_taken_name example_cleanMeta example_configure
           example_audit_add example_access example_taken_data _ example_world
           {| permission_visibility := "user" |}).
  - reflexivity.
  - reflexivity.
  - apply Exists_cons. right. apply Exists_cons. left. vm_compute. reflexivity.
Defined.

(** The error of that run names [b.example.com]. *)
Example create_reports_b_example_com :
  create example_cleanMeta example_configure example_audit_add
         example_access example_taken_data example_world =
    (Err (ValidationError "b.example.com is already in use"), example_taken_data,
     example_world).
Proof. vm_compute. reflexivity. Qed.

(** The audit entry of the run on [example_data] has the publisher's
    value under the key that both metas have. *)
Lemma create_audit_meta_row_wins_witness :
  ∃ audited merged,
    last (audit_log example_created_world) =
      Some (token_id example_access,
            AuditEntry.mk "created" "proxy-host" (View.id example_created_row)
                          (MetaCreate audited)) ∧
    CreateData.meta audited = Some merged ∧
    ∀ key, merged !! key =
             match View.meta example_created_row !! key with
             | Some v => Some v
             | None => default ∅ (CreateData.meta example_data) !! key
             end.
Proof.
  apply (create_audit_meta_row_wins example_cleanMeta example_configure example_audit_add
           example_access example_data example_world example_created_row
           example_created_data example_created_world).
  vm_compute. reflexivity.
Defined.

(** C2, as stated, fails on the run on [example_data]: the caller asked for
    [nginx_online = false], the publisher set [nginx_online = true], and the
    audit entry has the publisher's value. *)
Lemma create_audit_meta_caller_wins_counterexample :
  ¬ (∀ r data' w',
       create example_cleanMeta example_configure example_audit_add
              example_access example_data example_world = (Ok (Some r), data', w') →
       ∃ audited merged,
         last (audit_log w') =
           Some (token_id example_access,
                 AuditEntry.mk "created" "proxy-host" (View.id r) (MetaCreate audited)) ∧
         CreateData.meta audited = Some merged ∧
         ∀ key, merged !! key =
                  match default ∅ (CreateData.meta example_data) !! key with
                  | Some v => Some v
                  | None => View.meta r !! key
                  end).
Proof.
  intros Hclaim.
  destruct (Hclaim _ _ _ example_create_run) as (audited & merged & Hlast & Hmeta & Hkeys).
  simpl in Hlast. injection Hlast as <-. simpl in Hmeta. injection Hmeta as <-.
  specialize (Hkeys "nginx_online"%string). vm_compute in Hkeys. discriminate.
Qed.

(** After the run on [example_data] the caller's object has the actor's id
    and the merged [meta]. *)
Lemma create_mutates_data_witness :
  CreateData.owner_user_id example_created_data = Some (token_id example_access) ∧
  ∃ r, Some example_created_row = Some r ∧
       CreateData.meta example_created_data =
         Some (assign (default ∅ (CreateData.meta example_data)) (View.meta r)) ∧
       last (audit_log example_created_world) =
         Some (token_id example_access,
               AuditEntry.mk "created" "proxy-host" (View.id r)
                             (MetaCreate example_created_data)).
Proof.
  apply (create_mutates_data example_cleanMeta example_configure example_audit_add
           example_access example_data example_world (Some example_created_row)
           example_created_data example_created_world).
  vm_compute. reflexivity.
Defined.

(** The actor of [example_world] sees hosts 8 and 5, in that order. *)
Lemma getAll_active_and_ordered_witness :
  getAll example_cleanMeta example_like example_names_le example_access None None
         example_world = (Ok example_listed_rows, example_world) ∧
  Forall (λ row, Row.is_deleted (View.fields row) = false) example_listed_rows ∧
  StronglySorted (rows_ascending example_names_le) example_listed_rows.
Proof.
  assert (getAll example_cleanMeta example_like example_names_le example_access None None
            example_world = (Ok example_listed_rows, example_world)) as Hrun
    by (vm_compute; reflexivity).
  split; [exact Hrun|].
  exact (getAll_active_and_ordered example_cleanMeta example_like example_names_le
           example_access None None example_world example_listed_rows example_world Hrun).
Defined.

(** The restricted actor gets and lists only hosts of user 1, and
    [getCount] counts the two active hosts of user 1. *)
Lemma scoped_queries_only_see_own_rows_witness :
  Row.owner_user_id host_a = token_id example_access ∧
  Forall (λ row, Row.owner_user_id (View.fields row) = token_id example_access)
         example_listed_rows ∧
  Forall (λ r, Row.owner_user_id r = 1) (getCount_rows 1 "user" example_world) ∧
  getCount 1 "user" example_world = (Ok 2, example_world).
Proof.
  destruct (scoped_queries_only_see_own_rows example_cleanMeta example_like
              example_names_le example_access {| permission_visibility := "user" |} "user")
    as (Hget & HgetAll & HgetCount).
  - simpl. discriminate.
  - discriminate.
  - split_and!.
    + apply (Hget (GetData.mk 5 None None) example_world
                  (View.mk host_a ["is_deleted"%string] []) example_world).
      * reflexivity.
      * vm_compute. reflexivity.
    + apply (HgetAll None None example_world example_listed_rows example_world).
      * reflexivity.
      * vm_compute. reflexivity.
    + apply (HgetCount 1 example_world).
    + apply (HgetCount 1 example_world).
Defined.

(** ** Further runs on the concrete world *)

(** Every operation of the denying actor rejects and changes nothing. *)
Lemma permission_denied_changes_nothing_witness :
  create example_cleanMeta example_configure example_audit_add
         denying_access example_data example_world =
    (Err (PermissionError "Permission Denied"), example_data, example_world) ∧
  update example_cleanMeta example_audit_add denying_access example_update_data example_world =
    (Err (PermissionError "Permission Denied"), example_world) ∧
  get example_cleanMeta denying_access (GetData.mk 5 None None) example_world =
    (Err (PermissionError "Permission Denied"), example_world) ∧
  delete example_cleanMeta example_deleteConfig example_reload example_audit_add
         denying_access (DeleteData.mk 5 None) example_world =
    (Err (PermissionError "Permission Denied"), example_world) ∧
  getAll example_cleanMeta example_like example_names_le denying_access None None
         example_world =
    (Err (PermissionError "Permission Denied"), example_world).
Proof.
  destruct (permission_denied_changes_nothing example_cleanMeta example_like example_names_le
              example_configure example_deleteConfig example_reload example_audit_add
              denying_access "Permission Denied" example_world)
    as (Hcreate & Hupdate & Hget & Hdelete & HgetAll).
  split_and!.
  - apply Hcreate. reflexivity.
  - apply Hupdate. reflexivity.
  - apply Hget. reflexivity.
  - apply Hdelete. reflexivity.
  - apply HgetAll. reflexivity.
Defined.

(** The soft-deleted host 7 and host 6 of another user are both "not
    found" for the restricted actor. *)
Lemma get_not_found_witness :
  get example_cleanMeta example_access (GetData.mk 7 None None) example_world =
    (Err (ItemNotFoundError 7), example_world) ∧
  get example_cleanMeta example_access (GetData.mk 6 None None) example_world =
    (Err (ItemNotFoundError 6), example_world).
Proof.
  split.
  - apply (get_not_found example_cleanMeta example_access (GetData.mk 7 None None)
             example_world {| permission_visibility := "user" |}); [reflexivity|].
    intros r Hr Hid. unfold example_world in Hr. simpl in Hr.
    repeat (apply elem_of_cons in Hr as [->|Hr]); [..|by apply elem_of_nil in Hr];
      simpl in Hid; try discriminate.
    left. reflexivity.
  - apply (get_not_found example_cleanMeta example_access (GetData.mk 6 None None)
             example_world {| permission_visibility := "user" |}); [reflexivity|].
    intros r Hr Hid. unfold example_world in Hr. simpl in Hr.
    repeat (apply elem_of_cons in Hr as [->|Hr]); [..|by apply elem_of_nil in Hr];
      simpl in Hid; try discriminate.
    right. split; simpl; discriminate.
Defined.

(** Host 8 is the last record of the table; [get] passes over the three
    records before it. *)
Lemma get_resolves_with_first_match_witness :
  ∃ ad earlier r later,
    can example_access "proxy_hosts:get" (ResId 8) = inr ad ∧
    proxy_host example_world = earlier ++ r :: later ∧
    Forall (λ r', ¬ get_where example_access ad (GetData.mk 8 None None) r') earlier ∧
    get_where example_access ad (GetData.mk 8 None None) r ∧
    View.fields (View.mk host_0 ["is_deleted"%string] []) =
      Row.set_meta (example_cleanMeta (Row.meta r)) r ∧
    View.omitted (View.mk host_0 ["is_deleted"%string] []) = [] ++ ["is_deleted"%string] ∧
    View.expanded (View.mk host_0 ["is_deleted"%string] []) = [].
Proof.
  apply (get_resolves_with_first_match example_cleanMeta example_access
           (GetData.mk 8 None None) example_world
           (View.mk host_0 ["is_deleted"%string] []) example_world).
  vm_compute. reflexivity.
Defined.

(** Host 5 may keep [a.example.com] but not take [b.example.com]. *)
Lemma update_reports_first_taken_name_witness :
  ∃ before name after,
    ["a.example.com"; "b.example.com"]%string = before ++ name :: after ∧
    Forall (λ n, CheckResult.is_taken
                   (isHostnameTaken n (Some "proxy"%string) (Some 5) example_world) = false)
           before ∧
    CheckResult.is_taken
      (isHostnameTaken name (Some "proxy"%string) (Some 5) example_world) = true ∧
    update example_cleanMeta example_audit_add example_access example_update_taken
           example_world =
      (Err (ValidationError (name +:+ " is already in use")), example_world).
Proof.
  apply (update_reports_first_taken_name example_cleanMeta example_audit_add example_access
           example_update_taken _ example_world {| permission_visibility := "user" |}).
  - reflexivity.
  - reflexivity.
  - apply Exists_cons. right. apply Exists_cons. left. vm_compute. reflexivity.
Defined.

(** An update of the soft-deleted host 7 is "not found". *)
Lemma update_not_found_witness :
  update example_cleanMeta example_audit_add example_access example_update_gone
         example_world = (Err (ItemNotFoundError 7), example_world).
Proof.
  apply (update_not_found example_cleanMeta example_audit_add example_access
           example_update_gone example_world
           {| permission_visibility := "user" |} {| permission_visibility := "user" |}).
  - reflexivity.
  - reflexivity.
  - exact I.
  - intros r Hr Hid. unfold example_world in Hr. simpl in Hr.
    repeat (apply elem_of_cons in Hr as [->|Hr]); [..|by apply elem_of_nil in Hr];
      simpl in Hid; try discriminate.
    left. reflexivity.
Defined.

(** Host 5 resubmits its name: the update resolves and is audited. *)
Lemma update_resolves_witness :
  ∃ row w',
    update example_cleanMeta example_audit_add example_access example_update_data
           example_world = (Ok (Some row), w') ∧
    View.id row = 5 ∧
    "is_deleted"%string ∈ View.omitted row ∧
    (∃ m, View.meta row = example_cleanMeta m) ∧
    proxy_host w' =
      (λ r', if decide (Row.id r' = 5) then patch_row example_update_data r' else r')
        <$> proxy_host example_world ∧
    audit_log w' =
      audit_log example_world ++
      [(token_id example_access,
        AuditEntry.mk "updated" "proxy-host" 5 (MetaUpdate example_update_data))] ∧
    nginx_log w' = nginx_log example_world ∧
    other_hosts w' = other_hosts example_world.
Proof.
  apply (update_resolves example_cleanMeta example_audit_add example_access
           example_update_data example_world
           {| permission_visibility := "user" |} {| permission_visibility := "user" |} host_a).
  - reflexivity.
  - reflexivity.
  - unfold update_names_free. simpl. apply Forall_cons. split; [|constructor].
    vm_compute. reflexivity.
  - constructor.
  - split_and!; [reflexivity | reflexivity | intros _; reflexivity].
  - intros w' u e. reflexivity.
Defined.


(** With a removal that rejects, host 5 stays marked as deleted. *)
Lemma delete_only_marks_records_witness :
  proxy_host (delete example_cleanMeta failing_deleteConfig example_reload example_audit_add
                     example_access (DeleteData.mk 5 None) example_world).2 =
    marked_deleted 5 example_world.
Proof.
  destruct (delete_only_marks_records example_cleanMeta failing_deleteConfig example_reload
              example_audit_add example_access (DeleteData.mk 5 None) example_world)
    as (_ & _ & Hmarked).
  apply (Hmarked {| permission_visibility := "user" |} example_got_row).
  - reflexivity.
  - vm_compute. reflexivity.
Defined.

(** The rows listed for the restricted actor come from its active hosts. *)
Lemma getAll_rows_are_stored_matches_witness :
  ∃ ad, can example_access "proxy_hosts:list" ResNone = inr ad ∧
    Forall (λ row,
      ∃ r, r ∈ proxy_host example_world ∧
           Row.is_deleted r = false ∧
           (permission_visibility ad ≠ "all"%string →
            Row.owner_user_id r = token_id example_access) ∧
           (∀ q, None = Some q →
                 example_like (Row.domain_names r) ("%" +:+ q +:+ "%") = true) ∧
           View.fields row = Row.set_meta (example_cleanMeta (Row.meta r)) r ∧
           View.omitted row = ["is_deleted"%string] ∧
           View.expanded row = default [] None) example_listed_rows.
Proof.
  apply (getAll_rows_are_stored_matches example_cleanMeta example_like example_names_le
           example_access None None example_world example_listed_rows example_world).
  vm_compute. reflexivity.
Defined.

(** Hosts 8 and 5 are listed once each, and no visible host is missing. *)
Lemma getAll_lists_each_id_once_witness :
  NoDup (View.id <$> example_listed_rows) ∧
  ∃ ad, can example_access "proxy_hosts:list" ResNone = inr ad ∧
        ∀ r, r ∈ proxy_host example_world → getAll_where example_like example_access ad None r →
             Row.id r ∈ View.id <$> example_listed_rows.
Proof.
  apply (getAll_lists_each_id_once example_cleanMeta example_like example_names_le
           example_access None None example_world example_listed_rows example_world).
  vm_compute. reflexivity.
Defined.

(** Two rows are listed for user 1, and [getCount] gives 2. *)
Lemma getCount_is_length_of_getAll_witness :
  getCount 1 "user" example_world =
    (Ok (Z.of_nat (length example_listed_rows)), example_world).
Proof.
  apply (getCount_is_length_of_getAll example_cleanMeta example_like example_names_le
           example_access None example_world example_listed_rows example_world
           {| permission_visibility := "user" |}).
  - apply (bool_decide_unpack _). vm_compute. exact I.
  - reflexivity.
  - vm_compute. reflexivity.
Defined.

(** Each listed row can be fetched by its id. *)
Lemma listed_rows_can_be_got_witness :
  Forall (λ row,
    ∃ row', get example_cleanMeta example_access (GetData.mk (View.id row) None None)
                example_world = (Ok (Some row'), example_world) ∧
            View.id row' = View.id row ∧
            (NoDup (Row.id <$> proxy_host example_world) →
             View.fields row' = View.fields row)) example_listed_rows.
Proof.
  apply (listed_rows_can_be_got example_cleanMeta example_like example_names_le
           example_access None None example_world example_listed_rows example_world
           {| permission_visibility := "user" |}).
  - reflexivity.
  - intros id. reflexivity.
  - vm_compute. reflexivity.
Defined.

(** With a publisher that rejects, the new record stays and the caller's
    [data] has the actor's id. *)
Lemma create_is_not_rolled_back_witness :
  create example_cleanMeta failing_configure example_audit_add
         example_access example_data example_world =
    (Err (NginxError "could not write the configuration"),
     CreateData.set_owner_user_id (token_id example_access) example_data,
     add_nginx (Configure "proxy_host" (next_id example_world), false)
               (inserted_world example_access example_data example_world)).
Proof.
  apply (create_is_not_rolled_back example_cleanMeta failing_configure example_audit_add
           example_access example_data ["new.example.com"%string] example_world
           {| permission_visibility := "user" |}).
  - reflexivity.
  - reflexivity.
  - apply Forall_cons. split; [|constructor]. vm_compute. reflexivity.
  - reflexivity.
Defined.

(** The run of [create] on [example_data] resolves with a row of user 1. *)
Lemma create_resolves_witness :
  ∃ row data' w',
    create example_cleanMeta example_configure example_audit_add
           example_access example_data example_world = (Ok (Some row), data', w') ∧
    Row.owner_user_id (View.fields row) = token_id example_access ∧
    Row.domain_names (View.fields row) = ["new.example.com"%string] ∧
    Row.is_deleted (View.fields row) = false ∧
    View.meta row =
      example_cleanMeta
        (<["nginx_online"%string := JBool true]> {[ "nginx_online"%string := JBool false ]}) ∧
    View.omitted row = ["is_deleted"%string] ∧
    View.expanded row = [owner] ∧
    (View.fields row ∉ proxy_host example_world) ∧
    proxy_host w' =
      proxy_host example_world ++
      [Row.set_meta
         (<["nginx_online"%string := JBool true]> {[ "nginx_online"%string := JBool false ]})
         (inserted_row example_access example_data example_world)].
Proof.
  apply (create_resolves example_cleanMeta example_configure example_audit_add
           example_access example_data ["new.example.com"%string] example_world
           {| permission_visibility := "user" |} {| permission_visibility := "user" |}).
  - reflexivity.
  - reflexivity.
  - reflexivity.
  - apply Forall_cons. split; [|constructor]. vm_compute. reflexivity.
  - reflexivity.
  - intros w' u e. reflexivity.
Defined.

(** The created row can be read back as it was returned. *)
Lemma create_then_get_witness :
  get example_cleanMeta example_access
      (GetData.mk (View.id example_created_row) (Some [owner]) None) example_created_world =
    (Ok (Some example_created_row), example_created_world).
Proof.
  apply (create_then_get example_cleanMeta example_configure example_audit_add
           example_access example_data example_world example_created_row
           example_created_data example_created_world).
  vm_compute. reflexivity.
Defined.

(** The rows of the runs above are sanitized. *)
Lemma returned_rows_are_sanitized_witness :
  sanitized example_cleanMeta example_got_row ∧
  Forall (sanitized example_cleanMeta) example_listed_rows ∧
  sanitized example_cleanMeta example_created_row.
Proof.
  destruct (returned_rows_are_sanitized example_cleanMeta example_like example_names_le
              example_configure example_audit_add example_access example_world)
    as (Hget & HgetAll & _ & Hcreate).
  split_and!.
  - apply (Hget (GetData.mk 5 None None) example_got_row example_world).
    vm_compute. reflexivity.
  - apply (HgetAll None None example_listed_rows example_world). vm_compute. reflexivity.
  - apply (Hcreate example_data example_created_row example_created_data
                   example_created_world).
    vm_compute. reflexivity.
Defined.

(** A payload without names: an error for [create], no check for [update]. *)
Lemma missing_domain_names_witness :
  create example_cleanMeta example_configure example_audit_add
         example_access example_nameless_data example_world =
    (Err TypeError, example_nameless_data, example_world) ∧
  update_check_domain_names example_update_gone example_world = (Ok tt, example_world) ∧
  ∀ message,
    (update example_cleanMeta example_audit_add example_access example_update_gone
            example_world).1 ≠ Err (ValidationError message).
Proof.
  destruct (missing_domain_names example_cleanMeta example_configure example_audit_add
              example_access example_world) as [Hcreate Hupdate].
  split.
  - apply (Hcreate example_nameless_data {| permission_visibility := "user" |});
      reflexivity.
  - apply (Hupdate example_update_gone). reflexivity.
Defined.

(** A delete of the soft-deleted host 7 is "not found". *)
Lemma delete_not_found_witness :
  delete example_cleanMeta example_deleteConfig example_reload example_audit_add
         example_access (DeleteData.mk 7 None) example_world =
    (Err (ItemNotFoundError 7), example_world).
Proof.
  apply (delete_not_found example_cleanMeta example_deleteConfig example_reload
           example_audit_add example_access (DeleteData.mk 7 None) example_world
           {| permission_visibility := "user" |} {| permission_visibility := "user" |}).
  - reflexivity.
  - reflexivity.
  - intros r Hr Hid. unfold example_world in Hr. simpl in Hr.
    repeat (apply elem_of_cons in Hr as [->|Hr]); [..|by apply elem_of_nil in Hr];
      simpl in Hid; try discriminate.
    left. reflexivity.
Defined.


(** The counts of that run. *)
Example getCount_before_and_after_delete :
  getCount 1 "all" example_world = (Ok 3, example_world) ∧
  (getCount 1 "all"
     (delete example_cleanMeta failing_deleteConfig example_reload example_audit_add
             example_access (DeleteData.mk 5 None) example_world).2).1 = Ok 2.
Proof. split; vm_compute; reflexivity. Qed.
